(** * Verification of [src/validation.js]: the chainable field validator

    The JavaScript class [Validation] keeps one validation chain in its static
    fields ([value], [innerErrorMessage], [errors], [optional], [valid],
    [prefixError]).  Every method mutates those fields and returns [this].

    The embedding is shallow: a chain is a record, a method is a function
    from the chain before the call to the outcome of the call (the chain
    after it, or a thrown error together with the chain as the throw left
    it).  The caller-owned [errors] array is the field [errors] of the
    record: [errors.push(m)] appends [m] at its end. *)

From Stdlib Require Import Bool List String Ascii ZArith QArith Lia.
Import ListNotations.

Local Close Scope Q_scope.
Local Open Scope string_scope.

Set Warnings "-register-all".

(** ** JavaScript values *)

(** A JavaScript number: NaN, an infinity, or the rational a finite double
    denotes ([+0] and [-0] denote the same number; nothing in the program
    tells them apart). *)
Inductive JsNumber : Type :=
| NaN
| Infinity (negative : bool)
| Finite (q : Q).

(** Own property keys of an object: names and symbols. *)
Inductive PropertyKey : Type :=
| PName (name : string)
| PSymbol (id : nat).

(** The values a chain can be opened on: what a request body carries, plus
    [undefined].  Arrays and objects carry the address [loc] of the heap
    cell they live in, because [===] compares them by identity.  A string
    is its sequence of code units. *)
Inductive JsValue : Type :=
| JsUndefined
| JsNull
| JsBool (b : bool)
| JsNum (n : JsNumber)
| JsString (s : string)
| JsArray (loc : nat) (elems : list JsValue)
| JsObject (loc : nat) (props : list (PropertyKey * JsValue)).

Module Number.

Definition MAX_SAFE_INTEGER : Q := (9007199254740991 # 1)%Q.

Definition isNaN (n : JsNumber) : bool :=
  match n with NaN => true | _ => false end.

(** [a === b] on numbers: NaN differs from everything, itself included. *)
Definition eqb (a b : JsNumber) : bool :=
  match a, b with
  | Finite p, Finite q => Qeq_bool p q
  | Infinity s, Infinity t => Bool.eqb s t
  | _, _ => false
  end.

Definition isInteger (n : JsNumber) : bool :=
  match n with
  | Finite q => (Qnum q mod Zpos (Qden q) =? 0)%Z
  | _ => false
  end.

Definition isSafe (n : JsNumber) : bool :=
  match n with
  | Finite q => Qle_bool (Qopp MAX_SAFE_INTEGER) q && Qle_bool q MAX_SAFE_INTEGER
  | _ => false
  end.

Definition isSafeInteger (n : JsNumber) : bool := isInteger n && isSafe n.

Definition of_Z (z : Z) : JsNumber := Finite (inject_Z z).

End Number.

(** [typeof v] *)
Definition typeof (v : JsValue) : string :=
  match v with
  | JsUndefined => "undefined"
  | JsNull => "object"
  | JsBool _ => "boolean"
  | JsNum _ => "number"
  | JsString _ => "string"
  | JsArray _ _ => "object"
  | JsObject _ _ => "object"
  end.

(** [a === b] *)
Definition strict_equals (a b : JsValue) : bool :=
  match a, b with
  | JsUndefined, JsUndefined => true
  | JsNull, JsNull => true
  | JsBool x, JsBool y => Bool.eqb x y
  | JsNum x, JsNum y => Number.eqb x y
  | JsString x, JsString y => String.eqb x y
  | JsArray l _, JsArray m _ => Nat.eqb l m
  | JsObject l _, JsObject m _ => Nat.eqb l m
  | _, _ => false
  end.

(** SameValueZero, the comparison of [Array.prototype.includes]: like [===]
    except that NaN equals NaN. *)
Definition same_value_zero (a b : JsValue) : bool :=
  match a, b with
  | JsNum NaN, JsNum NaN => true
  | _, _ => strict_equals a b
  end.

(** ToBoolean: what [if (v)] and [!v] test. *)
Definition truthy (v : JsValue) : bool :=
  match v with
  | JsUndefined | JsNull => false
  | JsBool b => b
  | JsNum NaN => false
  | JsNum (Infinity _) => true
  | JsNum (Finite q) => negb (Qeq_bool q 0%Q)
  | JsString s => negb (String.eqb s "")
  | JsArray _ _ | JsObject _ _ => true
  end.

Module Array.

Definition isArray (v : JsValue) : bool :=
  match v with JsArray _ _ => true | _ => false end.

(** [arr.indexOf(x)]: the first index whose element is [=== x], else -1. *)
Fixpoint indexOf_from (i : Z) (arr : list JsValue) (x : JsValue) : Z :=
  match arr with
  | [] => (-1)%Z
  | y :: rest => if strict_equals y x then i else indexOf_from (i + 1)%Z rest x
  end.

Definition indexOf (arr : list JsValue) (x : JsValue) : Z := indexOf_from 0%Z arr x.

(** [arr.includes(x)] *)
Definition includes (arr : list JsValue) (x : JsValue) : bool :=
  existsb (fun y => same_value_zero y x) arr.

End Array.

Module Object.

Definition is_symbol (k : PropertyKey) : bool :=
  match k with PSymbol _ => true | PName _ => false end.

(** The length of [Object.getOwnPropertySymbols(v)]. *)
Definition getOwnPropertySymbols_length (v : JsValue) : nat :=
  match v with
  | JsObject _ props => List.length (filter (fun p => is_symbol (fst p)) props)
  | _ => 0
  end.

(** The length of [Object.getOwnPropertyNames(v)]: a string and an array
    own their indices and ["length"]. *)
Definition getOwnPropertyNames_length (v : JsValue) : nat :=
  match v with
  | JsObject _ props => List.length (filter (fun p => negb (is_symbol (fst p))) props)
  | JsArray _ elems => S (List.length elems)
  | JsString s => S (String.length s)
  | _ => 0
  end.

End Object.

(** ** Regular expressions

    [isArrayMatch] builds [new RegExp('^(' + validArray.join('|') + ')$', 'u')]
    and calls [test] on every element.  The patterns made of literal
    characters, escaped syntax characters, [.], groups, [|], [^], [$] and the
    quantifiers [*], [+], [?] are parsed and matched here; any other pattern
    text is handed to the engine of the host, an external collaborator. *)
Module RegExp.

Inductive Regex : Type :=
| Void
| Eps
| Chr (c : ascii)
| Dot                      (* any code unit but a line terminator *)
| All                      (* any code unit *)
| Bol                      (* ^ *)
| Eol                      (* $ *)
| Seq (r1 r2 : Regex)
| Alt (r1 r2 : Regex)
| Star (r : Regex).

Definition Plus (r : Regex) : Regex := Seq r (Star r).
Definition Quest (r : Regex) : Regex := Alt Eps r.

(** *** Parsing the pattern text *)

(** A parsed term, and whether a quantifier may follow it. *)
Definition Term : Type := (Regex * bool)%type.

(** One open group: the alternatives already closed by [|], and the terms
    of the alternative being read, last term first. *)
Record Frame : Type := mkFrame { alts : list Regex; terms : list Term }.

Definition empty_frame : Frame := mkFrame [] [].

Definition seq_of (ts : list Term) : Regex :=
  fold_left (fun acc t => Seq (fst t) acc) ts Eps.

Definition close_frame (f : Frame) : Regex :=
  fold_left (fun acc r => Alt r acc) (alts f) (seq_of (terms f)).

Definition push_term (t : Term) (f : Frame) : Frame :=
  mkFrame (alts f) (t :: terms f).

Definition quantify (q : Regex -> Regex) (f : Frame) : option Frame :=
  match terms f with
  | (r, true) :: ts => Some (mkFrame (alts f) ((q r, false) :: ts))
  | _ => None
  end.

Definition is_syntax_character (c : ascii) : bool :=
  existsb (Ascii.eqb c)
          ["^"; "$"; "\"; "."; "*"; "+"; "?"; "("; ")"; "["; "]"; "{"; "}"; "|"; "/"]%char.

Definition is_line_terminator (c : ascii) : bool :=
  Ascii.eqb c (ascii_of_nat 10) || Ascii.eqb c (ascii_of_nat 13).

(** [parse_from cur stack s] reads the pattern text [s] with [cur] the
    innermost open group and [stack] the groups around it.  [None] when
    the text leaves the fragment above (or is no pattern at all). *)
Fixpoint parse_from (cur : Frame) (stack : list Frame) (s : string) : option Regex :=
  match s with
  | EmptyString =>
      match stack with
      | [] => Some (close_frame cur)
      | _ :: _ => None
      end
  | String c rest =>
      if Ascii.eqb c "(" then parse_from empty_frame (cur :: stack) rest
      else if Ascii.eqb c ")" then
        match stack with
        | [] => None
        | parent :: stack' => parse_from (push_term (close_frame cur, true) parent) stack' rest
        end
      else if Ascii.eqb c "|" then
        parse_from (mkFrame (seq_of (terms cur) :: alts cur) []) stack rest
      else if Ascii.eqb c "*" then
        match quantify Star cur with
        | Some cur' => parse_from cur' stack rest
        | None => None
        end
      else if Ascii.eqb c "+" then
        match quantify Plus cur with
        | Some cur' => parse_from cur' stack rest
        | None => None
        end
      else if Ascii.eqb c "?" then
        match quantify Quest cur with
        | Some cur' => parse_from cur' stack rest
        | None => None
        end
      else if Ascii.eqb c "^" then parse_from (push_term (Bol, false) cur) stack rest
      else if Ascii.eqb c "$" then parse_from (push_term (Eol, false) cur) stack rest
      else if Ascii.eqb c "." then parse_from (push_term (Dot, true) cur) stack rest
      else if Ascii.eqb c "\" then
        match rest with
        | String e rest' =>
            if is_syntax_character e
            then parse_from (push_term (Chr e, true) cur) stack rest'
            else None
        | EmptyString => None
        end
      else if is_syntax_character c then None
      else parse_from (push_term (Chr c, true) cur) stack rest
  end.

Definition parse (source : string) : option Regex :=
  parse_from empty_frame [] source.

(** *** Matching, by derivatives

    [at_start] and [at_end] say where the current position is in the
    input: [^] holds at its start, [$] at its end (no [m] flag). *)
Fixpoint nullable (at_start at_end : bool) (r : Regex) : bool :=
  match r with
  | Void | Chr _ | Dot | All => false
  | Eps | Star _ => true
  | Bol => at_start
  | Eol => at_end
  | Seq r1 r2 => nullable at_start at_end r1 && nullable at_start at_end r2
  | Alt r1 r2 => nullable at_start at_end r1 || nullable at_start at_end r2
  end.

Fixpoint deriv (at_start : bool) (c : ascii) (r : Regex) : Regex :=
  match r with
  | Void | Eps | Bol | Eol => Void
  | Chr d => if Ascii.eqb c d then Eps else Void
  | Dot => if is_line_terminator c then Void else Eps
  | All => Eps
  | Seq r1 r2 =>
      if nullable at_start false r1
      then Alt (Seq (deriv at_start c r1) r2) (deriv at_start c r2)
      else Seq (deriv at_start c r1) r2
  | Alt r1 r2 => Alt (deriv at_start c r1) (deriv at_start c r2)
  | Star r1 => Seq (deriv at_start c r1) (Star r1)
  end.

Fixpoint accepts (at_start : bool) (r : Regex) (s : string) : bool :=
  match s with
  | EmptyString => nullable at_start true r
  | String c rest => accepts false (deriv at_start c r) rest
  end.

(** [regex.test(s)] without [g] or [y]: is there a match anywhere in [s]. *)
Definition search (r : Regex) (s : string) : bool :=
  accepts true (Seq (Star All) (Seq r (Star All))) s.

End RegExp.

(** ** Thrown errors *)

(** What a call can end in: it returns, or it throws [error].  Either way
    [chain] is the state the call left behind. *)
Inductive Outcome (A : Type) : Type :=
| Returned (chain : A)
| Threw (error : string) (chain : A).

Arguments Returned {A} chain.
Arguments Threw {A} error chain.

Definition state_of {A : Type} (o : Outcome A) : A :=
  match o with
  | Returned c => c
  | Threw _ c => c
  end.

(** The next call of a chain runs only when the previous one returned. *)
Definition and_then {A : Type} (o : Outcome A) (f : A -> Outcome A) : Outcome A :=
  match o with
  | Returned c => f c
  | Threw e c => Threw e c
  end.

Notation "o >>= f" := (and_then o f) (at level 50, left associativity).

(** ** The schemas of the [joi] library

    [schema.validate(value).error] is modelled by [validate]: [None] when the
    result carries no error, [Some code] with the error code otherwise. *)
Module Joi.

Definition Schema : Type := JsValue -> option string.

(** [Joi.string()] with the rules the program adds to it. *)
Record StringSchema : Type := mkStringSchema {
  allowed : list string;        (* .allow(...) *)
  min_length : option nat;      (* .min(limit) *)
  max_length : option nat       (* .max(limit) *)
}.

Definition string : StringSchema := mkStringSchema [] None None.

Definition allow (s : String.string) (sch : StringSchema) : StringSchema :=
  mkStringSchema (s :: allowed sch) (min_length sch) (max_length sch).

(** The limit of [min] and [max] has to be a non-negative safe integer:
    the builder asserts it and throws otherwise. *)
Definition limit (v : JsValue) : option nat :=
  match v with
  | JsNum (Finite q) =>
      if Number.isSafeInteger (Finite q) && Qle_bool 0%Q q
      then Some (Z.to_nat (Qnum q / Zpos (Qden q)))
      else None
  | _ => None
  end.

Definition limit_error : String.string := "limit must be a positive integer or reference".

Definition min (v : JsValue) (sch : StringSchema) : Outcome StringSchema :=
  match limit v with
  | Some n => Returned (mkStringSchema (allowed sch) (Some n) (max_length sch))
  | None => Threw limit_error sch
  end.

Definition max (v : JsValue) (sch : StringSchema) : Outcome StringSchema :=
  match limit v with
  | Some n => Returned (mkStringSchema (allowed sch) (min_length sch) (Some n))
  | None => Threw limit_error sch
  end.

(** Validation of a string schema: [undefined] is accepted (no
    [required()]), so is an allowed value; then the value has to be a
    string, non-empty unless [min(0)] was given, within the bounds. *)
Definition validate_string (sch : StringSchema) : Schema :=
  fun v =>
    match v with
    | JsUndefined => None
    | JsString s =>
        if existsb (String.eqb s) (allowed sch) then None
        else if String.eqb s "" then
          match min_length sch with
          | Some O => None
          | _ => Some "string.empty"
          end
        else if match min_length sch with
                | Some n => Nat.ltb (String.length s) n
                | None => false
                end then Some "string.min"
        else if match max_length sch with
                | Some n => Nat.ltb n (String.length s)
                | None => false
                end then Some "string.max"
        else None
    | _ => Some "string.base"
    end.

(** [Joi.boolean().strict()]: no conversion, booleans only. *)
Definition boolean_strict : Schema :=
  fun v =>
    match v with
    | JsUndefined | JsBool _ => None
    | _ => Some "boolean.base"
    end.

(** [Joi.number()] with the rules the program adds to it, on a value of
    type number: the program guards both uses with
    [typeof this.value === 'number'], so no conversion is in play. *)
Record NumberSchema : Type := mkNumberSchema { integer_rule : bool }.

Definition number : NumberSchema := mkNumberSchema false.

Definition integer (sch : NumberSchema) : NumberSchema := mkNumberSchema true.

Definition validate_number (sch : NumberSchema) (n : JsNumber) : option String.string :=
  match n with
  | Infinity _ => Some "number.infinity"
  | NaN => Some "number.base"
  | Finite _ =>
      if negb (Number.isSafe n) then Some "number.unsafe"
      else if integer_rule sch && negb (Number.isInteger n) then Some "number.integer"
      else None
  end.

End Joi.

(** ** External collaborators

    The schema checks whose verdict is a matter of syntax the program does
    not look into, the identifier check of the database driver, the
    duration parser, the printing of numbers and the host's regular
    expression engine are parameters of the development. *)
Record Collaborators : Type := mkCollaborators {
  Joi_date_iso : Joi.Schema;                  (* Joi.date().iso() *)
  Joi_object : Joi.Schema;                    (* Joi.object() *)
  Joi_array : Joi.Schema;                     (* Joi.array() *)
  Joi_string_email : Joi.Schema;              (* Joi.string().email() *)
  Joi_string_guid : Joi.Schema;               (* Joi.string().guid({ version: [uuidv1, uuidv4] }) *)
  ObjectID_isValid : JsValue -> bool;         (* ObjectID.isValid(value) *)
  tinyduration_parse : JsValue -> bool;       (* does tinyduration.parse(value) return (not throw) *)
  Number_toString : JsNumber -> string;       (* String(n) *)
  (* new RegExp(source, 'u') for a pattern text outside the fragment of
     [RegExp]: [None] when the constructor throws a SyntaxError, else the
     [test] of the regular expression built *)
  RegExp_host : string -> option (string -> bool)
}.

(** ToString, as [regex.test(field)] and [Array.prototype.join] apply it. *)
Section ToString.

Variable E : Collaborators.

Fixpoint ToString (v : JsValue) : string :=
  match v with
  | JsUndefined => "undefined"
  | JsNull => "null"
  | JsBool true => "true"
  | JsBool false => "false"
  | JsNum n => Number_toString E n
  | JsString s => s
  | JsArray _ elems =>
      (fix join (l : list JsValue) : string :=
         match l with
         | [] => ""
         | [x] => match x with
                  | JsUndefined | JsNull => ""
                  | _ => ToString x
                  end
         | x :: ((_ :: _) as rest) =>
             (match x with
              | JsUndefined | JsNull => ""
              | _ => ToString x
              end) ++ "," ++ join rest
         end) elems
  | JsObject _ _ => "[object Object]"
  end.

Definition join_item (x : JsValue) : string :=
  match x with
  | JsUndefined | JsNull => ""
  | _ => ToString x
  end.

(** [arr.join(sep)] *)
Fixpoint Array_join (sep : string) (arr : list JsValue) : string :=
  match arr with
  | [] => ""
  | [x] => join_item x
  | x :: ((_ :: _) as rest) => join_item x ++ sep ++ Array_join sep rest
  end.

End ToString.

(** ** The validation chain *)

(** The message bundle [innerErrorMessage]. *)
Record Messages : Type := mkMessages { required : string; invalid : string }.

(** The static fields of [Validation].  [errors] is the content of the
    caller's array the chain holds a reference to. *)
Record Chain : Type := mkChain {
  value : JsValue;
  innerErrorMessage : Messages;
  errors : list string;
  optional : bool;
  valid : bool;
  prefixError : string
}.

(** [this.valid = b] *)
Definition set_valid (b : bool) (this : Chain) : Chain :=
  mkChain (value this) (innerErrorMessage this) (errors this) (optional this) b (prefixError this).

(** The array [this.errors] after calls that pushed onto it. *)
Definition set_errors (errs : list string) (this : Chain) : Chain :=
  mkChain (value this) (innerErrorMessage this) errs (optional this) (valid this) (prefixError this).

(** [this.errors.push(m)] *)
Definition push_error (m : string) (this : Chain) : Chain :=
  set_errors (errors this ++ [m])%list this.

(** *** The helpers at the end of the file *)

Definition _isNullOrUndefined (value : JsValue) : bool :=
  strict_equals value JsNull || String.eqb (typeof value) "undefined".

Definition _isEmptyObject (object : JsValue) : bool :=
  Nat.eqb (Object.getOwnPropertySymbols_length object) 0
  && Nat.eqb (Object.getOwnPropertyNames_length object) 0.

(** Returns [(isNullOrUndefined, valid)] and the [errors] array as the call
    leaves it.  The helper is an arrow function of the module, so the
    [this] of its [this.valid = false] is the module's first [exports]
    object and not the class: the assignment never reaches the chain, and
    nothing reads what it wrote. *)
Definition _verifyNullOrUndefined (optional : bool) (value : JsValue) (errors : list string)
           (innerErrorMessage : Messages) (prefixError : string) : bool * bool * list string :=
  let isNullOrUndefined := _isNullOrUndefined value in
  if optional && isNullOrUndefined then (true, false, errors)
  else if negb isNullOrUndefined then (false, true, errors)
  else (true, false, (errors ++ [(prefixError ++ required innerErrorMessage)%string])%list).

(** Returns the verdict and the [errors] array as the call leaves it. *)
Definition _validation (schema : Joi.Schema) (optional : bool) (value : JsValue)
           (errors : list string) (innerErrorMessage : Messages) (prefixError : string)
  : bool * list string :=
  let '(isNullOrUndefined, valid, errors) :=
    _verifyNullOrUndefined optional value errors innerErrorMessage prefixError in
  if isNullOrUndefined then (valid, errors)
  else match schema value with
       | None => (valid, errors)
       | Some _ => (false, (errors ++ [(prefixError ++ invalid innerErrorMessage)%string])%list)
       end.

(** [this.valid = _validation(schema, this.optional, this.value, ...)] *)
Definition assign_validation (schema : Joi.Schema) (this : Chain) : Chain :=
  let '(v, errs) := _validation schema (optional this) (value this) (errors this)
                                (innerErrorMessage this) (prefixError this) in
  set_valid v (set_errors errs this).

(** [_validation(schema, this.optional, this.value, ...)], result dropped *)
Definition discard_validation (schema : Joi.Schema) (this : Chain) : Chain :=
  let '(_, errs) := _validation schema (optional this) (value this) (errors this)
                                (innerErrorMessage this) (prefixError this) in
  set_errors errs this.

(** [const { isNullOrUndefined, valid } = _verifyNullOrUndefined(...); this.valid = valid]:
    the chain after the assignment, and [isNullOrUndefined]. *)
Definition assign_verifyNullOrUndefined (this : Chain) : bool * Chain :=
  let '(isNullOrUndefined, v, errs) :=
    _verifyNullOrUndefined (optional this) (value this) (errors this)
                           (innerErrorMessage this) (prefixError this) in
  (isNullOrUndefined, set_valid v (set_errors errs this)).

(** [this.valid = false; this.errors.push(this.prefixError + this.innerErrorMessage.invalid)] *)
Definition fail_invalid (this : Chain) : Chain :=
  push_error (prefixError this ++ invalid (innerErrorMessage this)) (set_valid false this).

(** *** The methods of [Validation] *)

Definition validate (value : JsValue) (innerErrorMessage : Messages) (errors : list string)
           (prefixError : string) : Chain :=
  mkChain value innerErrorMessage errors false true prefixError.

Definition isOptional (this : Chain) : Chain :=
  mkChain (value this) (innerErrorMessage this) (errors this) true (valid this) (prefixError this).

(** The schema [isString] builds from its bounds; the builder throws on a
    bound that is no limit. *)
Definition isString_schema (minLength maxLength : JsValue) : Outcome Joi.StringSchema :=
  if String.eqb (typeof minLength) "undefined" && String.eqb (typeof maxLength) "undefined"
  then Returned (Joi.allow "" Joi.string)
  else if strict_equals minLength (JsNum (Number.of_Z 0))
  then Returned (Joi.allow "" Joi.string) >>= Joi.min minLength >>= Joi.max maxLength
  else Returned Joi.string >>= Joi.min minLength >>= Joi.max maxLength.

Definition Array_elements (v : JsValue) : list JsValue :=
  match v with JsArray _ elems => elems | _ => [] end.

Definition notAllowedValues_error : string := "notAllowedValues must be an array".

Definition isString (minLength maxLength notAllowedValues : JsValue) (this : Chain)
  : Outcome Chain :=
  match isString_schema minLength maxLength with
  | Threw e _ => Threw e this
  | Returned schema =>
      let this := assign_validation (Joi.validate_string schema) this in
      if truthy notAllowedValues && negb (Array.isArray notAllowedValues)
      then Threw notAllowedValues_error this
      else if Array.isArray notAllowedValues
              && (Array.indexOf (Array_elements notAllowedValues) (value this) >? -1)%Z
      then Returned (push_error (invalid (innerErrorMessage this)) this)
      else Returned this
  end.

Definition isStringEnum (enumArray : list JsValue) (this : Chain) : Chain :=
  let schema := Joi.validate_string Joi.string in
  let this := assign_validation schema this in
  if negb (valid this) || strict_equals (value this) JsUndefined then this
  else if negb (Array.includes enumArray (value this)) then fail_invalid this
  else this.

(** [typeof v === 'number' && !isNaN(v) && !schema.validate(v).error] *)
Definition number_without_error (schema : Joi.NumberSchema) (v : JsValue) : bool :=
  match v with
  | JsNum n =>
      String.eqb (typeof v) "number" && negb (Number.isNaN n)
      && match Joi.validate_number schema n with None => true | Some _ => false end
  | _ => false
  end.

Definition isNumber (this : Chain) : Chain :=
  let schema := Joi.integer Joi.number in
  let '(isNullOrUndefined, this) := assign_verifyNullOrUndefined this in
  if isNullOrUndefined then this
  else if number_without_error schema (value this) then this
  else fail_invalid this.

Definition isFloat (this : Chain) : Chain :=
  let schema := Joi.number in
  let '(isNullOrUndefined, this) := assign_verifyNullOrUndefined this in
  if isNullOrUndefined then this
  else if number_without_error schema (value this) then this
  else fail_invalid this.

Definition isBoolean (this : Chain) : Chain :=
  let schema := Joi.boolean_strict in
  discard_validation schema this.

Definition custom (func : JsValue -> JsValue) (this : Chain) : Chain :=
  let '(isNullOrUndefined, this) := assign_verifyNullOrUndefined this in
  if isNullOrUndefined then this
  else
    let isValid := func (value this) in
    if truthy isValid then this
    else fail_invalid this.

(** [isValid(func)]: the callback takes no argument and is called for its
    effects.  It sees the whole program state, the chain (a static class)
    and the rest of the world [W], and leaves a new one. *)
Definition isValid {W : Type} (func : Chain * W -> Chain * W) (state : Chain * W) : Chain * W :=
  if valid (fst state) then func state else state.

Section Checks.

Variable E : Collaborators.

Definition isDateISO (this : Chain) : Chain :=
  let schema := Joi_date_iso E in
  discard_validation schema this.

Definition isDateIS8601Duration (this : Chain) : Chain :=
  let schema := Joi.validate_string Joi.string in
  let this := assign_validation schema this in
  if negb (valid this) then this
  else if tinyduration_parse E (value this) then this
  else set_valid false (push_error (prefixError this ++ invalid (innerErrorMessage this)) this).

Definition isObject (this : Chain) : Chain :=
  assign_validation (Joi_object E) this.

Definition isObjectNotEmpty (this : Chain) : Chain :=
  let '(isNullOrUndefined, this) := assign_verifyNullOrUndefined this in
  if isNullOrUndefined then this
  else
    let schema := Joi_object E in
    let this := assign_validation schema this in
    if negb (valid this) || negb (_isEmptyObject (value this)) then this
    else fail_invalid this.

Definition isObjectId (this : Chain) : Chain :=
  let '(isNullOrUndefined, this) := assign_verifyNullOrUndefined this in
  if isNullOrUndefined then this
  else if ObjectID_isValid E (value this) then this
  else fail_invalid this.

Definition isEmail (this : Chain) : Chain :=
  assign_validation (Joi_string_email E) this.

Definition isUUID (this : Chain) : Chain :=
  assign_validation (Joi_string_guid E) this.

Definition isArray (this : Chain) : Chain :=
  assign_validation (Joi_array E) this.

(** [new RegExp(source, 'u')]: the [test] of the regular expression, or
    [None] when the constructor throws. *)
Definition RegExp_new (source : string) : option (JsValue -> bool) :=
  match RegExp.parse source with
  | Some r => Some (fun field => RegExp.search r (ToString E field))
  | None => option_map (fun test field => test (ToString E field)) (RegExp_host E source)
  end.

(** The [for (const field of arrayValue)] loop of [isArrayMatch], which
    breaks at the first field the pattern does not match. *)
Fixpoint for_of_fields (test : JsValue -> bool) (arrayValue : list JsValue) (this : Chain)
  : Chain :=
  match arrayValue with
  | [] => this
  | field :: rest =>
      if negb (test field)
      then set_valid false (push_error (prefixError this ++ invalid (innerErrorMessage this)) this)
      else for_of_fields test rest this
  end.

Definition isArrayMatch (validArray : list JsValue) (this : Chain) : Outcome Chain :=
  let '(isNullOrUndefined, this) := assign_verifyNullOrUndefined this in
  if isNullOrUndefined then Returned this
  else
    match RegExp_new ("^(" ++ Array_join E "|" validArray ++ ")$") with
    | None => Threw "SyntaxError" this
    | Some fieldRegex_test =>
        let arrayValue := value this in
        if negb (Array.isArray arrayValue) then
          if negb (String.eqb (typeof arrayValue) "string")
          then Returned
                 (set_valid false
                    (push_error (prefixError this ++ invalid (innerErrorMessage this)) this))
          else Returned (for_of_fields fieldRegex_test [arrayValue] this)
        else Returned (for_of_fields fieldRegex_test (Array_elements arrayValue) this)
    end.

(** [this.value.length > 0]; a value without [length] gives
    [undefined > 0], which is false. *)
Definition length_positive (v : JsValue) : bool :=
  match v with
  | JsArray _ elems => Nat.ltb 0 (List.length elems)
  | JsString s => Nat.ltb 0 (String.length s)
  | _ => false
  end.

Definition isArrayNotEmpty (this : Chain) : Chain :=
  let schema := Joi_array E in
  let this := assign_validation schema this in
  if negb (valid this) || length_positive (value this) then this
  else fail_invalid this.

(** *** A check call, as data *)

Inductive Check : Type :=
| IsString (minLength maxLength notAllowedValues : JsValue)
| IsStringEnum (enumArray : list JsValue)
| IsNumber
| IsFloat
| IsDateISO
| IsDateIS8601Duration
| IsBoolean
| IsObject
| IsObjectNotEmpty
| IsObjectId
| IsEmail
| IsUUID
| IsArray
| IsArrayMatch (validArray : list JsValue)
| IsArrayNotEmpty
| Custom (func : JsValue -> JsValue).

Definition call (c : Check) (this : Chain) : Outcome Chain :=
  match c with
  | IsString minLength maxLength notAllowedValues =>
      isString minLength maxLength notAllowedValues this
  | IsStringEnum enumArray => Returned (isStringEnum enumArray this)
  | IsNumber => Returned (isNumber this)
  | IsFloat => Returned (isFloat this)
  | IsDateISO => Returned (isDateISO this)
  | IsDateIS8601Duration => Returned (isDateIS8601Duration this)
  | IsBoolean => Returned (isBoolean this)
  | IsObject => Returned (isObject this)
  | IsObjectNotEmpty => Returned (isObjectNotEmpty this)
  | IsObjectId => Returned (isObjectId this)
  | IsEmail => Returned (isEmail this)
  | IsUUID => Returned (isUUID this)
  | IsArray => Returned (isArray this)
  | IsArrayMatch validArray => isArrayMatch validArray this
  | IsArrayNotEmpty => Returned (isArrayNotEmpty this)
  | Custom func => Returned (custom func this)
  end.

End Checks.

(** [isValid]'s callback with a counter of its calls put in front of the
    world. *)
Definition counted {W : Type} (func : Chain * W -> Chain * W)
  : Chain * (nat * W) -> Chain * (nat * W) :=
  fun state =>
    let '(this, (calls, w)) := state in
    let '(this', w') := func (this, w) in
    (this', (S calls, w')).

(** Does the third argument of an [isString] call list the value: the test
    [Array.isArray(notAllowedValues) && notAllowedValues.indexOf(value) > -1]. *)
Definition lists_value (c : Check) (v : JsValue) : bool :=
  match c with
  | IsString _ _ notAllowedValues =>
      Array.isArray notAllowedValues
      && (Array.indexOf (Array_elements notAllowedValues) v >? -1)%Z
  | _ => false
  end.

(** ** Concrete data to run the model on *)

Definition sample_messages : Messages := mkMessages "required" "invalid".

(** Collaborators that accept objects as objects, arrays as arrays, and no
    text at all as a date, an address, an identifier or a duration. *)
Definition sample_collaborators : Collaborators :=
  mkCollaborators
    (fun v => match v with JsUndefined => None | _ => Some "date.format" end)
    (fun v => match v with JsUndefined | JsObject _ _ => None | _ => Some "object.base" end)
    (fun v => match v with JsUndefined | JsArray _ _ => None | _ => Some "array.base" end)
    (fun v => match v with JsUndefined => None | _ => Some "string.email" end)
    (fun v => match v with JsUndefined => None | _ => Some "string.guid" end)
    (fun _ => false)
    (fun _ => false)
    (fun _ => "NaN")
    (fun _ => None).

Definition zero : JsValue := JsNum (Number.of_Z 0).
Definition five : JsValue := JsNum (Number.of_Z 5).

Definition a_or_b : list JsValue := [JsString "a"; JsString "b"].

(** The call returned, leaving [valid] at [v] and [errors] holding [errs]. *)
Definition leaves (o : Outcome Chain) (v : bool) (errs : list string) : Prop :=
  exists this' : Chain, o = Returned this' /\ valid this' = v /\ errors this' = errs.

(** A chain of check calls, run left to right; a throw ends it. *)
Fixpoint run_checks (E : Collaborators) (cs : list Check) (this : Chain) : Outcome Chain :=
  match cs with
  | [] => Returned this
  | c :: rest => call E c this >>= run_checks E rest
  end.

(** The most messages one call of the check can append. *)
Definition messages_bound (c : Check) : nat :=
  match c with
  | IsString _ _ _ => 2
  | _ => 1
  end.

(** Collaborators whose identifier check and duration parser take
    everything; the rest as in [sample_collaborators]. *)
Definition lenient_collaborators : Collaborators :=
  mkCollaborators (Joi_date_iso sample_collaborators) (Joi_object sample_collaborators)
                  (Joi_array sample_collaborators) (Joi_string_email sample_collaborators)
                  (Joi_string_guid sample_collaborators) (fun _ => true) (fun _ => true)
                  (fun _ => "5") (fun _ => None).

(** Two chains after the same call on chains that differed in [errors] and
    [valid] only: the same messages were appended, and [valid] is the same
    or was left as found. *)
Definition alike (errs errs' : list string) (vl vl' : bool) (s s' : Chain) : Prop :=
  exists added : list string,
    errors s = (errs ++ added)%list
    /\ errors s' = (errs' ++ added)%list
    /\ (valid s = valid s' \/ (valid s = vl /\ valid s' = vl')).

(** Two outcomes of the same call on such chains: both returned, or both
    threw the same error. *)
Definition same_effect (errs errs' : list string) (vl vl' : bool)
           (o o' : Outcome Chain) : Prop :=
  match o, o' with
  | Returned s, Returned s' => alike errs errs' vl vl' s s'
  | Threw e s, Threw e' s' => e = e' /\ alike errs errs' vl vl' s s'
  | _, _ => False
  end.

(** * Properties *)

(** ** The helpers never read [valid] *)

Lemma assign_validation_set_valid (schema : Joi.Schema) (b : bool) (this : Chain) :
  assign_validation schema (set_valid b this) = assign_validation schema this.
Proof.
  unfold assign_validation; simpl.
  destruct (_validation schema (optional this) (value this) (errors this)
                        (innerErrorMessage this) (prefixError this)) as [v errs].
  reflexivity.
Qed.

Lemma assign_verifyNullOrUndefined_set_valid (b : bool) (this : Chain) :
  assign_verifyNullOrUndefined (set_valid b this) = assign_verifyNullOrUndefined this.
Proof.
  unfold assign_verifyNullOrUndefined; simpl.
  destruct (_verifyNullOrUndefined (optional this) (value this) (errors this)
                                   (innerErrorMessage this) (prefixError this))
    as [[isNull v] errs].
  reflexivity.
Qed.

Lemma discard_validation_valid (schema : Joi.Schema) (this : Chain) :
  valid (discard_validation schema this) = valid this.
Proof.
  unfold discard_validation.
  destruct (_validation schema (optional this) (value this) (errors this)
                        (innerErrorMessage this) (prefixError this)) as [v errs].
  reflexivity.
Qed.

(** ** The null policy on a missing value *)

Lemma verify_missing_optional (v : JsValue) (errs : list string) (m : Messages) (p : string) :
  _isNullOrUndefined v = true ->
  _verifyNullOrUndefined true v errs m p = (true, false, errs).
Proof. intros Hv; unfold _verifyNullOrUndefined; rewrite Hv; reflexivity. Qed.

Lemma verify_missing_required (v : JsValue) (errs : list string) (m : Messages) (p : string) :
  _isNullOrUndefined v = true ->
  _verifyNullOrUndefined false v errs m p = (true, false, (errs ++ [(p ++ required m)%string])%list).
Proof. intros Hv; unfold _verifyNullOrUndefined; rewrite Hv; reflexivity. Qed.

Lemma verify_present (o : bool) (v : JsValue) (errs : list string) (m : Messages) (p : string) :
  _isNullOrUndefined v = false ->
  _verifyNullOrUndefined o v errs m p = (false, true, errs).
Proof.
  intros Hv; unfold _verifyNullOrUndefined; rewrite Hv.
  rewrite andb_false_r; reflexivity.
Qed.

Lemma assign_validation_missing_optional (schema : Joi.Schema) (this : Chain) :
  _isNullOrUndefined (value this) = true -> optional this = true ->
  assign_validation schema this = set_valid false this.
Proof.
  intros Hv Ho; unfold assign_validation, _validation.
  rewrite Ho, verify_missing_optional by exact Hv.
  destruct this; reflexivity.
Qed.

Lemma assign_verify_missing_optional (this : Chain) :
  _isNullOrUndefined (value this) = true -> optional this = true ->
  assign_verifyNullOrUndefined this = (true, set_valid false this).
Proof.
  intros Hv Ho; unfold assign_verifyNullOrUndefined.
  rewrite Ho, verify_missing_optional by exact Hv.
  destruct this; reflexivity.
Qed.

Lemma assign_validation_missing_required (schema : Joi.Schema) (this : Chain) :
  _isNullOrUndefined (value this) = true -> optional this = false ->
  assign_validation schema this =
    set_valid false (push_error (prefixError this ++ required (innerErrorMessage this)) this).
Proof.
  intros Hv Ho; unfold assign_validation, _validation.
  rewrite Ho, verify_missing_required by exact Hv.
  destruct this; reflexivity.
Qed.

Lemma assign_verify_present (this : Chain) :
  _isNullOrUndefined (value this) = false ->
  assign_verifyNullOrUndefined this = (false, set_valid true this).
Proof.
  intros Hv; unfold assign_verifyNullOrUndefined.
  rewrite verify_present by exact Hv.
  destruct this; reflexivity.
Qed.

Lemma assign_validation_present (schema : Joi.Schema) (this : Chain) :
  _isNullOrUndefined (value this) = false ->
  assign_validation schema this =
    match schema (value this) with
    | None => set_valid true this
    | Some _ => fail_invalid this
    end.
Proof.
  intros Hv; unfold assign_validation, _validation.
  rewrite verify_present by exact Hv.
  destruct (schema (value this)); destruct this; reflexivity.
Qed.

Lemma isNullOrUndefined_string (s : string) : _isNullOrUndefined (JsString s) = false.
Proof. reflexivity. Qed.

(** [Joi.string().allow('')] accepts every string. *)
Lemma string_allow_empty_accepts (s : string) :
  Joi.validate_string (Joi.allow "" Joi.string) (JsString s) = None.
Proof.
  unfold Joi.validate_string; simpl.
  destruct (String.eqb s ""); reflexivity.
Qed.

Ltac unfold_checks :=
  unfold isStringEnum, isNumber, isFloat, isDateISO, isDateIS8601Duration, isBoolean,
    isObject, isObjectNotEmpty, isObjectId, isEmail, isUUID, isArray, isArrayMatch,
    isArrayNotEmpty, custom in *.

(** ** C1: [valid] across the calls of a chain *)

(** C1, counterexample: on the value "abc", [isNumber] fails and sets [valid]
    to false, and the [isString()] call that follows sets it back to true. *)
Lemma valid_reset_after_failed_isNumber :
  valid (isNumber (validate (JsString "abc") sample_messages [] "")) = false
  /\ isString JsUndefined JsUndefined JsUndefined
              (isNumber (validate (JsString "abc") sample_messages [] ""))
     = Returned (mkChain (JsString "abc") sample_messages ["invalid"] false true "").
Proof. split; reflexivity. Qed.

(** C1, as amended: [valid] is the verdict of the last check that assigns
    it.  For a call that returns of a check other than [isDateISO] and
    [isBoolean]: the call leaves the same chain whatever [valid] was before
    it, so an earlier false is not kept; and [isString()] on a string value
    leaves [valid] true. *)
Theorem valid_is_the_verdict_of_the_last_check :
  forall (E : Collaborators) (c : Check) (this this' : Chain),
    call E c this = Returned this' ->
    (c <> IsDateISO -> c <> IsBoolean ->
     forall b : bool, call E c (set_valid b this) = Returned this')
    /\ (forall s : string,
           c = IsString JsUndefined JsUndefined JsUndefined ->
           value this = JsString s -> valid this' = true).
Proof.
  intros E c this this' Hcall; split.
  - intros Hdate Hbool b.
    destruct c; try congruence; simpl in *.
    + unfold isString in *.
      destruct (isString_schema minLength maxLength) as [schema | e schema];
        [ | discriminate ].
      rewrite assign_validation_set_valid; exact Hcall.
    + unfold_checks; rewrite assign_validation_set_valid; exact Hcall.
    + unfold_checks; rewrite assign_verifyNullOrUndefined_set_valid; exact Hcall.
    + unfold_checks; rewrite assign_verifyNullOrUndefined_set_valid; exact Hcall.
    + unfold_checks; rewrite assign_validation_set_valid; exact Hcall.
    + unfold_checks; rewrite assign_validation_set_valid; exact Hcall.
    + unfold_checks; rewrite assign_verifyNullOrUndefined_set_valid; exact Hcall.
    + unfold_checks; rewrite assign_verifyNullOrUndefined_set_valid; exact Hcall.
    + unfold_checks; rewrite assign_validation_set_valid; exact Hcall.
    + unfold_checks; rewrite assign_validation_set_valid; exact Hcall.
    + unfold_checks; rewrite assign_validation_set_valid; exact Hcall.
    + unfold_checks; rewrite assign_verifyNullOrUndefined_set_valid; exact Hcall.
    + unfold_checks; rewrite assign_validation_set_valid; exact Hcall.
    + unfold_checks; rewrite assign_verifyNullOrUndefined_set_valid; exact Hcall.
  - intros s -> Hvalue; simpl in Hcall.
    unfold isString in Hcall; simpl in Hcall.
    rewrite assign_validation_present in Hcall
      by (rewrite Hvalue; apply isNullOrUndefined_string).
    rewrite Hvalue, string_allow_empty_accepts in Hcall.
    injection Hcall as <-; reflexivity.
Qed.

(** C1, witness: the theorem at the chain of the counterexample: whatever
    [valid] is when [isString()] is called on "abc", the call leaves it true. *)
Lemma valid_is_the_verdict_of_the_last_check_witness :
  call sample_collaborators (IsString JsUndefined JsUndefined JsUndefined)
       (set_valid true (isNumber (validate (JsString "abc") sample_messages [] "")))
  = Returned (mkChain (JsString "abc") sample_messages ["invalid"] false true "").
Proof.
  refine (proj1 (valid_is_the_verdict_of_the_last_check
                   sample_collaborators
                   (IsString JsUndefined JsUndefined JsUndefined)
                   (isNumber (validate (JsString "abc") sample_messages [] ""))
                   _ _) _ _ true).
  - reflexivity.
  - discriminate.
  - discriminate.
Defined.

Lemma discard_validation_missing_optional (schema : Joi.Schema) (this : Chain) :
  _isNullOrUndefined (value this) = true -> optional this = true ->
  discard_validation schema this = this.
Proof.
  intros Hv Ho; unfold discard_validation, _validation.
  rewrite Ho, verify_missing_optional by exact Hv.
  destruct this; reflexivity.
Qed.

Lemma discard_validation_missing_required (schema : Joi.Schema) (this : Chain) :
  _isNullOrUndefined (value this) = true -> optional this = false ->
  discard_validation schema this =
    push_error (prefixError this ++ required (innerErrorMessage this)) this.
Proof.
  intros Hv Ho; unfold discard_validation, _validation.
  rewrite Ho, verify_missing_required by exact Hv.
  destruct this; reflexivity.
Qed.

Lemma discard_validation_present (schema : Joi.Schema) (this : Chain) :
  _isNullOrUndefined (value this) = false ->
  discard_validation schema this =
    match schema (value this) with
    | None => this
    | Some _ => push_error (prefixError this ++ invalid (innerErrorMessage this)) this
    end.
Proof.
  intros Hv; unfold discard_validation, _validation.
  rewrite verify_present by exact Hv.
  destruct (schema (value this)); destruct this; reflexivity.
Qed.

(** ** C2: a missing value on an optional chain *)

(** C2, counterexample: [validate(undefined, msgs, []).isOptional().isString()]
    ends with [errors] empty and [valid] false, not true. *)
Lemma optional_missing_isString_clears_valid :
  isString JsUndefined JsUndefined JsUndefined
           (isOptional (validate JsUndefined sample_messages [] ""))
  = Returned (mkChain JsUndefined sample_messages [] true false "").
Proof. reflexivity. Qed.

(** C2, as amended: when the value is missing and [optional] is true, a check
    call that returns has set [valid] to false (the verdict
    [_verifyNullOrUndefined] gives for that case), for every check other than
    [isDateISO] and [isBoolean]; and it has appended nothing to [errors],
    unless it is an [isString] call whose [notAllowedValues] array lists the
    missing value. *)
Theorem missing_optional_value_sets_valid_false :
  forall (E : Collaborators) (c : Check) (this this' : Chain),
    _isNullOrUndefined (value this) = true ->
    optional this = true ->
    call E c this = Returned this' ->
    (c <> IsDateISO -> c <> IsBoolean -> valid this' = false)
    /\ (lists_value c (value this) = false -> errors this' = errors this).
Proof.
  intros E c this this' Hv Ho Hcall.
  destruct c; simpl in Hcall; unfold_checks.
  - unfold isString in Hcall.
    destruct (isString_schema minLength maxLength) as [schema | e schema];
      [ | discriminate ].
    rewrite assign_validation_missing_optional in Hcall by assumption.
    destruct (truthy notAllowedValues && negb (Array.isArray notAllowedValues));
      [ discriminate | ].
    simpl in *.
    destruct (Array.isArray notAllowedValues
              && (Array.indexOf (Array_elements notAllowedValues) (value this) >? -1)%Z);
      injection Hcall as <-; split; intros; try reflexivity; discriminate.
  - rewrite assign_validation_missing_optional in Hcall by assumption.
    simpl in Hcall; injection Hcall as <-; split; reflexivity.
  - rewrite assign_verify_missing_optional in Hcall by assumption.
    injection Hcall as <-; split; reflexivity.
  - rewrite assign_verify_missing_optional in Hcall by assumption.
    injection Hcall as <-; split; reflexivity.
  - rewrite discard_validation_missing_optional in Hcall by assumption.
    injection Hcall as <-; split; [ congruence | reflexivity ].
  - rewrite assign_validation_missing_optional in Hcall by assumption.
    simpl in Hcall; injection Hcall as <-; split; reflexivity.
  - rewrite discard_validation_missing_optional in Hcall by assumption.
    injection Hcall as <-; split; [ congruence | reflexivity ].
  - rewrite assign_validation_missing_optional in Hcall by assumption.
    injection Hcall as <-; split; reflexivity.
  - rewrite assign_verify_missing_optional in Hcall by assumption.
    injection Hcall as <-; split; reflexivity.
  - rewrite assign_verify_missing_optional in Hcall by assumption.
    injection Hcall as <-; split; reflexivity.
  - rewrite assign_validation_missing_optional in Hcall by assumption.
    injection Hcall as <-; split; reflexivity.
  - rewrite assign_validation_missing_optional in Hcall by assumption.
    injection Hcall as <-; split; reflexivity.
  - rewrite assign_validation_missing_optional in Hcall by assumption.
    injection Hcall as <-; split; reflexivity.
  - rewrite assign_verify_missing_optional in Hcall by assumption.
    injection Hcall as <-; split; reflexivity.
  - rewrite assign_validation_missing_optional in Hcall by assumption.
    simpl in Hcall; injection Hcall as <-; split; reflexivity.
  - rewrite assign_verify_missing_optional in Hcall by assumption.
    injection Hcall as <-; split; reflexivity.
Qed.

(** C2, witness: the theorem at
    [validate(null, msgs, ["earlier"]).isOptional().isNumber()]. *)
Lemma missing_optional_value_sets_valid_false_witness :
  valid (isNumber (isOptional (validate JsNull sample_messages ["earlier"] ""))) = false
  /\ errors (isNumber (isOptional (validate JsNull sample_messages ["earlier"] "")))
     = ["earlier"].
Proof.
  pose proof (missing_optional_value_sets_valid_false
                sample_collaborators IsNumber
                (isOptional (validate JsNull sample_messages ["earlier"] ""))
                (isNumber (isOptional (validate JsNull sample_messages ["earlier"] "")))
                eq_refl eq_refl eq_refl) as [Hvalid Herrors].
  split.
  - apply Hvalid; discriminate.
  - apply Herrors; reflexivity.
Defined.

(** ** C3 and C4: [isDateISO] and [isBoolean] drop the verdict *)

(** C3: what the code does where the claim fails.  [isBoolean] and
    [isDateISO] never change [valid]: on the present value "yes", which is no
    boolean, [isBoolean] appends [prefixError + invalid] and leaves [valid]
    true, and so does [isDateISO] on a text that is no date.  The
    [notAllowedValues] branch of [isString] appends [invalid] without the
    prefix and leaves [valid] true. *)
Theorem failed_isBoolean_isDateISO_keep_valid :
  (forall (E : Collaborators) (this : Chain),
      valid (isBoolean this) = valid this /\ valid (isDateISO E this) = valid this)
  /\ isBoolean (validate (JsString "yes") sample_messages [] "f.")
     = mkChain (JsString "yes") sample_messages ["f.invalid"] false true "f."
  /\ isDateISO sample_collaborators (validate (JsString "yes") sample_messages [] "f.")
     = mkChain (JsString "yes") sample_messages ["f.invalid"] false true "f."
  /\ isString JsUndefined JsUndefined (JsArray 0 [JsString "admin"])
              (validate (JsString "admin") sample_messages [] "f.")
     = Returned (mkChain (JsString "admin") sample_messages ["invalid"] false true "f.").
Proof.
  repeat split; try reflexivity.
  - apply discard_validation_valid.
  - apply discard_validation_valid.
Qed.

(** C4: what the code does where the claim fails.  On a missing value of a
    chain that is not optional, [isBoolean] and [isDateISO] append
    [prefixError + required] and leave [valid] true. *)
Theorem missing_required_isBoolean_isDateISO_keep_valid :
  forall E : Collaborators,
    isBoolean (validate JsUndefined sample_messages [] "f.")
    = mkChain JsUndefined sample_messages ["f.required"] false true "f."
    /\ isDateISO E (validate JsUndefined sample_messages [] "f.")
       = mkChain JsUndefined sample_messages ["f.required"] false true "f."
    /\ isDateISO E (validate JsNull sample_messages [] "f.")
       = mkChain JsNull sample_messages ["f.required"] false true "f.".
Proof. intros E; repeat split; reflexivity. Qed.

(** ** C5: [notAllowedValues] that is no array *)

(** C5: when [notAllowedValues] is truthy and not an array, [isString]
    throws.  If the bounds give a schema, the error thrown is
    "notAllowedValues must be an array" and the chain is as the schema check
    left it; otherwise the schema builder has thrown before and the chain
    is untouched.  Either way [errors] holds what it held plus at most the
    one message of the schema check: the thrown error is not among the
    messages appended. *)
Theorem isString_notAllowedValues_not_array_throws :
  forall (minLength maxLength notAllowedValues : JsValue) (this : Chain),
    truthy notAllowedValues = true ->
    Array.isArray notAllowedValues = false ->
    exists (e : string) (this' : Chain),
      isString minLength maxLength notAllowedValues this = Threw e this'
      /\ ((e = Joi.limit_error /\ this' = this)
          \/ (e = notAllowedValues_error
              /\ exists schema : Joi.StringSchema,
                  isString_schema minLength maxLength = Returned schema
                  /\ this' = assign_validation (Joi.validate_string schema) this))
      /\ (errors this' = errors this
          \/ errors this' =
               (errors this ++ [(prefixError this ++ required (innerErrorMessage this))%string])%list
          \/ errors this' =
               (errors this ++ [(prefixError this ++ invalid (innerErrorMessage this))%string])%list).
Proof.
  intros minLength maxLength notAllowedValues this Htruthy Harray.
  unfold isString.
  destruct (isString_schema minLength maxLength) as [schema | e schema] eqn:Hschema.
  - rewrite Htruthy, Harray; simpl.
    exists notAllowedValues_error, (assign_validation (Joi.validate_string schema) this).
    split; [ reflexivity | split ].
    + right; split; [ reflexivity | exists schema; split; reflexivity ].
    + destruct (_isNullOrUndefined (value this)) eqn:Hv.
      * destruct (optional this) eqn:Ho.
        -- rewrite assign_validation_missing_optional by assumption; left; reflexivity.
        -- rewrite assign_validation_missing_required by assumption;
             right; left; reflexivity.
      * rewrite assign_validation_present by assumption.
        destruct (Joi.validate_string schema (value this));
          [ right; right; reflexivity | left; reflexivity ].
  - exists e, this.
    split; [ reflexivity | split ].
    + left; split; [ | reflexivity ].
      unfold isString_schema, and_then, Joi.min, Joi.max in Hschema.
      repeat match type of Hschema with
             | context [if ?b then _ else _] => destruct b
             | context [match Joi.limit ?v with _ => _ end] => destruct (Joi.limit v)
             end; congruence.
    + left; reflexivity.
Qed.

(** C5, witness: the theorem at
    [validate(5, msgs, []).isString(undefined, undefined, "x")]:
    the call throws, with the message of the failed schema check in [errors]. *)
Lemma isString_notAllowedValues_not_array_throws_witness :
  exists (e : string) (this' : Chain),
    isString JsUndefined JsUndefined (JsString "x") (validate five sample_messages [] "")
    = Threw e this'.
Proof.
  destruct (isString_notAllowedValues_not_array_throws
              JsUndefined JsUndefined (JsString "x")
              (validate five sample_messages [] "") eq_refl eq_refl)
    as (e & this' & Hthrew & _).
  exists e, this'; exact Hthrew.
Defined.

(** ** C6: [isArrayMatch(["a","b"])] *)

Lemma leaves_intro (this' : Chain) (v : bool) (errs : list string) :
  valid this' = v -> errors this' = errs -> leaves (Returned this') v errs.
Proof. intros Hv He; exists this'; auto. Qed.

(** The loop stops at the first field that does not match: it leaves the
    chain as it was, or fails it once. *)
Lemma for_of_fields_breaks (test : JsValue -> bool) (arrayValue : list JsValue)
      (this : Chain) :
  for_of_fields test arrayValue this = this
  \/ for_of_fields test arrayValue this =
       set_valid false (push_error (prefixError this ++ invalid (innerErrorMessage this)) this).
Proof.
  induction arrayValue as [ | field rest IH]; simpl.
  - left; reflexivity.
  - destruct (test field); simpl; [ exact IH | right; reflexivity ].
Qed.

(** The pattern built from ["a","b"] is ["^(a|b)$"], inside the fragment. *)
Lemma RegExp_new_a_or_b (E : Collaborators) :
  exists test : JsValue -> bool,
    RegExp_new E ("^(" ++ Array_join E "|" a_or_b ++ ")$") = Some test.
Proof. eexists; reflexivity. Qed.

(** C6: with the allowed list ["a","b"], the value "a" and the array
    ["a","b"] leave [valid] true and [errors] as it was; the value "c" and the
    array ["a","b","c"] leave [valid] false and append the one message
    [prefixError + invalid]; so does every present value that is neither an
    array nor a string; and on any array the call appends that message once
    or not at all, since the loop breaks at the first mismatch. *)
Theorem isArrayMatch_a_b :
  forall (E : Collaborators) (this : Chain),
    (value this = JsString "a" ->
     leaves (isArrayMatch E a_or_b this) true (errors this))
    /\ (value this = JsString "c" ->
        leaves (isArrayMatch E a_or_b this) false
               (errors this ++ [(prefixError this ++ invalid (innerErrorMessage this))%string])%list)
    /\ (forall loc : nat,
           value this = JsArray loc [JsString "a"; JsString "b"; JsString "c"] ->
           leaves (isArrayMatch E a_or_b this) false
                  (errors this ++ [(prefixError this ++ invalid (innerErrorMessage this))%string])%list)
    /\ (forall loc : nat,
           value this = JsArray loc [JsString "a"; JsString "b"] ->
           leaves (isArrayMatch E a_or_b this) true (errors this))
    /\ (_isNullOrUndefined (value this) = false ->
        Array.isArray (value this) = false ->
        typeof (value this) <> "string" ->
        leaves (isArrayMatch E a_or_b this) false
               (errors this ++ [(prefixError this ++ invalid (innerErrorMessage this))%string])%list)
    /\ (forall (loc : nat) (elems : list JsValue),
           value this = JsArray loc elems ->
           leaves (isArrayMatch E a_or_b this) true (errors this)
           \/ leaves (isArrayMatch E a_or_b this) false
                     (errors this ++ [(prefixError this ++ invalid (innerErrorMessage this))%string])%list).
Proof.
  intros E [v m errs o vl p]; simpl.
  split; [ | split; [ | split; [ | split; [ | split ] ] ] ].
  - intros ->; destruct o; apply leaves_intro; reflexivity.
  - intros ->; destruct o; apply leaves_intro; reflexivity.
  - intros loc ->; destruct o; apply leaves_intro; reflexivity.
  - intros loc ->; destruct o; apply leaves_intro; reflexivity.
  - intros Hpresent Harray Htypeof.
    destruct v; try discriminate; try (exfalso; apply Htypeof; reflexivity);
      destruct o; apply leaves_intro; reflexivity.
  - intros loc elems ->.
    unfold isArrayMatch.
    rewrite assign_verify_present by reflexivity.
    destruct (RegExp_new_a_or_b E) as [test ->]; simpl.
    match goal with
    | |- context [for_of_fields ?t ?l ?c] =>
        destruct (for_of_fields_breaks t l c) as [Hloop | Hloop]; rewrite Hloop
    end; [ left | right ]; apply leaves_intro; reflexivity.
Qed.

(** C6, witness: the theorem at
    [validate(["a","b","c"], msgs, ["earlier"], "f.")] and at
    [validate(true, msgs, [], "f.")]. *)
Lemma isArrayMatch_a_b_witness :
  leaves (isArrayMatch sample_collaborators a_or_b
            (validate (JsArray 7 [JsString "a"; JsString "b"; JsString "c"])
                      sample_messages ["earlier"] "f."))
         false ["earlier"; "f.invalid"]
  /\ leaves (isArrayMatch sample_collaborators a_or_b
               (validate (JsBool true) sample_messages [] "f."))
            false ["f.invalid"].
Proof.
  split.
  - apply (proj1 (proj2 (proj2
             (isArrayMatch_a_b sample_collaborators
                (validate (JsArray 7 [JsString "a"; JsString "b"; JsString "c"])
                          sample_messages ["earlier"] "f.")))) 7 eq_refl).
  - apply (proj1 (proj2 (proj2 (proj2 (proj2
             (isArrayMatch_a_b sample_collaborators
                (validate (JsBool true) sample_messages [] "f.")))))) eq_refl eq_refl).
    discriminate.
Defined.

(** ** C7: [isString] and the empty string *)

(** C7: [isString(0, 5)] on "" leaves [valid] true and appends nothing; on
    "toolong!!" it leaves [valid] false and appends the one message
    [prefixError + invalid]; [isString()] on "" leaves [valid] true and
    appends nothing. *)
Theorem isString_empty_string_and_bounds :
  forall this : Chain,
    (value this = JsString "" ->
     leaves (isString zero five JsUndefined this) true (errors this))
    /\ (value this = JsString "toolong!!" ->
        leaves (isString zero five JsUndefined this) false
               (errors this ++ [(prefixError this ++ invalid (innerErrorMessage this))%string])%list)
    /\ (value this = JsString "" ->
        leaves (isString JsUndefined JsUndefined JsUndefined this) true (errors this)).
Proof.
  intros [v m errs o vl p]; simpl.
  repeat split; intros ->; destruct o; apply leaves_intro; reflexivity.
Qed.

(** C7, witness: the theorem at [validate("", msgs, [], "f.")] and at
    [validate("toolong!!", msgs, [], "f.")]. *)
Lemma isString_empty_string_and_bounds_witness :
  leaves (isString zero five JsUndefined (validate (JsString "") sample_messages [] "f."))
         true []
  /\ leaves (isString zero five JsUndefined
                      (validate (JsString "toolong!!") sample_messages [] "f."))
            false ["f.invalid"]
  /\ leaves (isString JsUndefined JsUndefined JsUndefined
                      (validate (JsString "") sample_messages [] "f."))
            true [].
Proof.
  split; [ | split ].
  - apply (proj1 (isString_empty_string_and_bounds
                    (validate (JsString "") sample_messages [] "f.")) eq_refl).
  - apply (proj1 (proj2 (isString_empty_string_and_bounds
                    (validate (JsString "toolong!!") sample_messages [] "f."))) eq_refl).
  - apply (proj2 (proj2 (isString_empty_string_and_bounds
                    (validate (JsString "") sample_messages [] "f."))) eq_refl).
Defined.

(** ** C8: [isValid] *)

(** C8: [isValid(func)] runs the callback once when [valid] is true, the
    program state after the call being the one the callback left, and does
    nothing at all when [valid] is false; with a counter put on the
    callback, the call adds one to it in the first case and nothing in the
    second. *)
Theorem isValid_calls_back_iff_valid :
  forall (W : Type) (func : Chain * W -> Chain * W) (this : Chain) (w : W) (calls : nat),
    (valid this = true -> isValid func (this, w) = func (this, w))
    /\ (valid this = false -> isValid func (this, w) = (this, w))
    /\ fst (snd (isValid (counted func) (this, (calls, w))))
       = calls + (if valid this then 1 else 0).
Proof.
  intros W func this w calls; unfold isValid; simpl.
  destruct (valid this); repeat split; try discriminate.
  - unfold counted; destruct (func (this, w)); simpl; lia.
  - simpl; lia.
Qed.

(** C8, witness: the theorem at a callback that stores the value in the
    world, on a
    chain that passed [isString()] and on one that failed [isNumber]. *)
Lemma isValid_calls_back_iff_valid_witness :
  isValid (fun state => (fst state, value (fst state)))
          (set_valid true (validate (JsString "abc") sample_messages [] ""), JsUndefined)
  = (set_valid true (validate (JsString "abc") sample_messages [] ""), JsString "abc")
  /\ isValid (fun state => (fst state, value (fst state)))
             (isNumber (validate (JsString "abc") sample_messages [] ""), JsUndefined)
     = (isNumber (validate (JsString "abc") sample_messages [] ""), JsUndefined).
Proof.
  split.
  - apply (proj1 (isValid_calls_back_iff_valid
                    JsValue (fun state => (fst state, value (fst state)))
                    (set_valid true (validate (JsString "abc") sample_messages [] ""))
                    JsUndefined 0) eq_refl).
  - apply (proj1 (proj2 (isValid_calls_back_iff_valid
                    JsValue (fun state => (fst state, value (fst state)))
                    (isNumber (validate (JsString "abc") sample_messages [] ""))
                    JsUndefined 0)) eq_refl).
Defined.

(** ** C9: the [notAllowedValues] branch of [isString] *)

(** C9: when [notAllowedValues] is an array that lists the value, [isString]
    (its bounds giving a schema) returns the chain the schema check left,
    with [invalid] appended without [prefixError] and [valid] as the schema
    check set it; this holds for a missing value too, where the call leaves
    [valid] false and [errors] holding the [required] message of a chain that
    is not optional, then [invalid]. *)
Theorem isString_notAllowedValues_lists_value :
  forall (minLength maxLength : JsValue) (loc : nat) (elems : list JsValue)
         (schema : Joi.StringSchema) (this : Chain),
    isString_schema minLength maxLength = Returned schema ->
    (Array.indexOf elems (value this) > -1)%Z ->
    isString minLength maxLength (JsArray loc elems) this
    = Returned (push_error (invalid (innerErrorMessage this))
                           (assign_validation (Joi.validate_string schema) this))
    /\ valid (state_of (isString minLength maxLength (JsArray loc elems) this))
       = valid (assign_validation (Joi.validate_string schema) this)
    /\ (_isNullOrUndefined (value this) = true ->
        leaves (isString minLength maxLength (JsArray loc elems) this) false
               (errors this
                ++ (if optional this then []
                    else [(prefixError this ++ required (innerErrorMessage this))%string])
                ++ [invalid (innerErrorMessage this)])%list).
Proof.
  intros minLength maxLength loc elems schema this Hschema Hlisted.
  assert (Hcall : isString minLength maxLength (JsArray loc elems) this
                  = Returned (push_error (invalid (innerErrorMessage this))
                                (assign_validation (Joi.validate_string schema) this))).
  { unfold isString; rewrite Hschema; simpl.
    assert (Hvalue : value (assign_validation (Joi.validate_string schema) this) = value this).
    { unfold assign_validation.
      destruct (_validation (Joi.validate_string schema) (optional this) (value this)
                            (errors this) (innerErrorMessage this) (prefixError this));
        reflexivity. }
    assert (Hmsg : innerErrorMessage (assign_validation (Joi.validate_string schema) this)
                   = innerErrorMessage this).
    { unfold assign_validation.
      destruct (_validation (Joi.validate_string schema) (optional this) (value this)
                            (errors this) (innerErrorMessage this) (prefixError this));
        reflexivity. }
    rewrite Hvalue, Hmsg.
    assert (Hb : (Array.indexOf elems (value this) >? -1)%Z = true)
      by (apply Z.gtb_lt; lia).
    rewrite Hb; reflexivity. }
  split; [ exact Hcall | split ].
  - rewrite Hcall; reflexivity.
  - intros Hv; rewrite Hcall; apply leaves_intro.
    + destruct (optional this) eqn:Ho.
      * rewrite assign_validation_missing_optional by assumption; reflexivity.
      * rewrite assign_validation_missing_required by assumption; reflexivity.
    + destruct (optional this) eqn:Ho.
      * rewrite assign_validation_missing_optional by assumption; reflexivity.
      * rewrite assign_validation_missing_required by assumption; simpl.
        rewrite <- app_assoc; reflexivity.
Qed.

(** C9, witness: the theorem at [validate(null, msgs, [], "f.").isOptional()
    .isString(undefined, undefined, [null])]: the value is missing and the
    chain optional, yet the call appends the bare "invalid". *)
Lemma isString_notAllowedValues_lists_value_witness :
  leaves (isString JsUndefined JsUndefined (JsArray 0 [JsNull])
                   (isOptional (validate JsNull sample_messages [] "f.")))
         false ["invalid"].
Proof.
  apply (proj2 (proj2 (isString_notAllowedValues_lists_value
                         JsUndefined JsUndefined 0 [JsNull]
                         (Joi.allow "" Joi.string)
                         (isOptional (validate JsNull sample_messages [] "f."))
                         eq_refl eq_refl)) eq_refl).
Defined.

(** ** C10: [isNumber] and [isFloat] *)

(** What [Joi.number().integer()] accepts, [Joi.number()] accepts. *)
Lemma integer_schema_refines_number_schema (v : JsValue) :
  number_without_error (Joi.integer Joi.number) v = true ->
  number_without_error Joi.number v = true.
Proof.
  destruct v as [ | | b | n | s | loc elems | loc props ]; try discriminate.
  destruct n as [ | negative | q ]; try discriminate.
  unfold number_without_error, Joi.validate_number.
  destruct (negb (Number.isSafe (Finite q))); [ discriminate | ].
  intros _; reflexivity.
Qed.

(** C10: if [isNumber()] leaves [valid] true and appends no error, then
    [isFloat()] on the same chain leaves [valid] true and appends no error. *)
Theorem isNumber_passes_implies_isFloat_passes :
  forall this : Chain,
    valid (isNumber this) = true ->
    errors (isNumber this) = errors this ->
    valid (isFloat this) = true /\ errors (isFloat this) = errors this.
Proof.
  intros this Hvalid _.
  unfold isNumber, isFloat in *.
  destruct (_isNullOrUndefined (value this)) eqn:Hv.
  - destruct (optional this) eqn:Ho.
    + rewrite assign_verify_missing_optional in Hvalid by assumption.
      simpl in Hvalid; discriminate.
    + unfold assign_verifyNullOrUndefined in Hvalid.
      rewrite Ho, verify_missing_required in Hvalid by exact Hv.
      simpl in Hvalid; discriminate.
  - rewrite assign_verify_present in * by assumption; simpl in *.
    destruct (number_without_error (Joi.integer Joi.number) (value this)) eqn:Hint;
      [ | discriminate ].
    rewrite (integer_schema_refines_number_schema _ Hint).
    split; reflexivity.
Qed.

(** C10, witness: the theorem at [validate(5, msgs, ["earlier"], "f.")]. *)
Lemma isNumber_passes_implies_isFloat_passes_witness :
  valid (isFloat (validate five sample_messages ["earlier"] "f.")) = true
  /\ errors (isFloat (validate five sample_messages ["earlier"] "f.")) = ["earlier"].
Proof.
  apply (isNumber_passes_implies_isFloat_passes
           (validate five sample_messages ["earlier"] "f.") eq_refl eq_refl).
Defined.

(** * Further properties of the methods *)

(** ** What "missing" is *)

(** X18: a value is missing exactly when it is [null] or [undefined]: zero,
    the empty string, [false], NaN, empty arrays and empty objects are
    present. *)
Theorem isNullOrUndefined_exactly :
  forall v : JsValue,
    _isNullOrUndefined v = true <-> v = JsNull \/ v = JsUndefined.
Proof.
  intros v; split.
  - destruct v; simpl; intros H; try discriminate; auto.
  - intros [-> | ->]; reflexivity.
Qed.

(** ** The footprint of a check call *)

Lemma fail_invalid_set_valid (b : bool) (this : Chain) :
  fail_invalid (set_valid b this) = fail_invalid this.
Proof. destruct this; reflexivity. Qed.

Lemma assign_verify_missing_required (this : Chain) :
  _isNullOrUndefined (value this) = true -> optional this = false ->
  assign_verifyNullOrUndefined this =
    (true, set_valid false
             (push_error (prefixError this ++ required (innerErrorMessage this)) this)).
Proof.
  intros Hv Ho; unfold assign_verifyNullOrUndefined.
  rewrite Ho, verify_missing_required by exact Hv.
  destruct this; reflexivity.
Qed.

(** The loop of [isArrayMatch] fails the chain exactly when some field does
    not match. *)
Lemma for_of_fields_forallb (test : JsValue -> bool) (arrayValue : list JsValue)
      (this : Chain) :
  for_of_fields test arrayValue this =
    if forallb test arrayValue then this
    else set_valid false
           (push_error (prefixError this ++ invalid (innerErrorMessage this)) this).
Proof.
  induction arrayValue as [ | field rest IH]; simpl.
  - reflexivity.
  - destruct (test field); simpl; [ exact IH | reflexivity ].
Qed.

Ltac split_conditions :=
  repeat match goal with
         | |- context [if ?b then _ else _] => destruct b eqn:?; simpl
         | |- context [match ?x with Some _ => _ | None => _ end] => destruct x eqn:?; simpl
         end.

Ltac finish_shape :=
  split; [ simpl; lia | simpl; intuition (subst; auto) ].

Ltac close_shape :=
  first
    [ solve [ simpl in *; discriminate ]
    | eexists; exists []; split; [ rewrite app_nil_r; reflexivity | finish_shape ]
    | eexists; eexists [_]; split; [ reflexivity | finish_shape ]
    | eexists; eexists [_; _]; split; [ rewrite <- app_assoc; reflexivity | finish_shape ] ].

(** The footprint of one call: the fields it leaves alone and the messages
    it can append. *)
Lemma call_footprint :
  forall (E : Collaborators) (c : Check) (this : Chain),
    exists (v : bool) (added : list string),
      state_of (call E c this)
      = mkChain (value this) (innerErrorMessage this) (errors this ++ added)%list
                (optional this) v (prefixError this)
      /\ List.length added <= messages_bound c
      /\ (forall m : string,
             In m added ->
             m = (prefixError this ++ required (innerErrorMessage this))%string
             \/ m = (prefixError this ++ invalid (innerErrorMessage this))%string
             \/ m = invalid (innerErrorMessage this)).
Proof.
  intros E c [v m errs o vl p].
  destruct c; simpl; unfold_checks;
    unfold isString, assign_validation, discard_validation, assign_verifyNullOrUndefined,
      _validation, _verifyNullOrUndefined, fail_invalid, push_error, set_valid, set_errors;
    simpl.
  - destruct (isString_schema minLength maxLength) as [schema | e schema]; simpl;
      [ | close_shape ].
    destruct (_isNullOrUndefined v), o; simpl; split_conditions; close_shape.
  - destruct (_isNullOrUndefined v), o; simpl; split_conditions; close_shape.
  - destruct (_isNullOrUndefined v), o; simpl; split_conditions; close_shape.
  - destruct (_isNullOrUndefined v), o; simpl; split_conditions; close_shape.
  - destruct (_isNullOrUndefined v), o; simpl; split_conditions; close_shape.
  - destruct (_isNullOrUndefined v), o; simpl; split_conditions; close_shape.
  - destruct (_isNullOrUndefined v), o; simpl; split_conditions; close_shape.
  - destruct (_isNullOrUndefined v), o; simpl; split_conditions; close_shape.
  - destruct (_isNullOrUndefined v) eqn:Hv, o; simpl; try rewrite Hv; simpl;
      split_conditions; close_shape.
  - destruct (_isNullOrUndefined v), o; simpl; split_conditions; close_shape.
  - destruct (_isNullOrUndefined v), o; simpl; split_conditions; close_shape.
  - destruct (_isNullOrUndefined v), o; simpl; split_conditions; close_shape.
  - destruct (_isNullOrUndefined v), o; simpl; split_conditions; close_shape.
  - destruct (_isNullOrUndefined v), o; simpl; try close_shape;
      (destruct (RegExp_new E _) as [test | ]; simpl; [ | close_shape ];
       rewrite ?for_of_fields_forallb; simpl; split_conditions; close_shape).
  - destruct (_isNullOrUndefined v), o; simpl; split_conditions; close_shape.
  - destruct (_isNullOrUndefined v), o; simpl; split_conditions; close_shape.
Qed.

(** X1: whatever the check, whatever the chain, and whether the call returns
    or throws, the call leaves [value], [innerErrorMessage], [optional] and
    [prefixError] as they were, and [errors] with its earlier content
    followed by the messages appended: at most one (two for [isString]),
    each of them [prefixError + required], [prefixError + invalid] or the
    bare [invalid]. *)
Theorem call_touches_only_valid_and_errors :
  forall (E : Collaborators) (c : Check) (this : Chain),
    exists (v : bool) (added : list string),
      state_of (call E c this)
      = mkChain (value this) (innerErrorMessage this) (errors this ++ added)%list
                (optional this) v (prefixError this)
      /\ List.length added <= messages_bound c
      /\ (forall m : string,
             In m added ->
             m = (prefixError this ++ required (innerErrorMessage this))%string
             \/ m = (prefixError this ++ invalid (innerErrorMessage this))%string
             \/ m = invalid (innerErrorMessage this)).
Proof. exact call_footprint. Qed.

(** ** The four ways a verdict-assigning check ends *)

Ltac close_outcome :=
  intros;
  first
    [ discriminate
    | match goal with
      | H : Returned _ = Returned _ |- _ => injection H as <-
      end;
      simpl;
      first [ reflexivity | left; reflexivity | right; reflexivity ]
    | simpl in *; congruence ].

(** The states a returning check that assigns [valid] can end in. *)
Lemma check_outcomes :
  forall (E : Collaborators) (c : Check) (this this' : Chain),
    c <> IsDateISO -> c <> IsBoolean ->
    lists_value c (value this) = false ->
    call E c this = Returned this' ->
    if _isNullOrUndefined (value this)
    then this' = (if optional this
                  then set_valid false this
                  else set_valid false
                         (push_error (prefixError this ++ required (innerErrorMessage this))
                                     this))
    else this' = set_valid true this \/ this' = fail_invalid this.
Proof.
  intros E c [v m errs o vl p] this' Hdate Hbool.
  destruct c; try congruence; clear Hdate Hbool; simpl; unfold_checks;
    unfold isString, assign_validation, discard_validation, assign_verifyNullOrUndefined,
      _validation, _verifyNullOrUndefined, fail_invalid, push_error, set_valid, set_errors;
    simpl.
  - destruct (isString_schema minLength maxLength) as [schema | e schema]; simpl;
      [ | close_outcome ].
    destruct (_isNullOrUndefined v), o; simpl; split_conditions; close_outcome.
  - destruct (_isNullOrUndefined v), o; simpl; split_conditions; close_outcome.
  - destruct (_isNullOrUndefined v), o; simpl; split_conditions; close_outcome.
  - destruct (_isNullOrUndefined v), o; simpl; split_conditions; close_outcome.
  - destruct (_isNullOrUndefined v), o; simpl; split_conditions; close_outcome.
  - destruct (_isNullOrUndefined v), o; simpl; split_conditions; close_outcome.
  - destruct (_isNullOrUndefined v) eqn:Hv, o; simpl; try rewrite Hv; simpl;
      split_conditions; close_outcome.
  - destruct (_isNullOrUndefined v), o; simpl; split_conditions; close_outcome.
  - destruct (_isNullOrUndefined v), o; simpl; split_conditions; close_outcome.
  - destruct (_isNullOrUndefined v), o; simpl; split_conditions; close_outcome.
  - destruct (_isNullOrUndefined v), o; simpl; split_conditions; close_outcome.
  - destruct (_isNullOrUndefined v), o; simpl; try close_outcome;
      (destruct (RegExp_new E _) as [test | ]; simpl; [ | close_outcome ];
       rewrite ?for_of_fields_forallb; simpl; split_conditions; close_outcome).
  - destruct (_isNullOrUndefined v), o; simpl; split_conditions; close_outcome.
  - destruct (_isNullOrUndefined v), o; simpl; split_conditions; close_outcome.
Qed.

(** X2: a check other than [isDateISO] and [isBoolean] (and, for [isString],
    when [notAllowedValues] does not list the value) that returns ends in one
    of four states.  On a missing value: [valid] false and nothing appended
    if the chain is optional, [valid] false and [prefixError + required]
    appended if it is not.  On a present value: [valid] true and nothing
    appended, or [valid] false and [prefixError + invalid] appended.  Nothing
    else changes. *)
Theorem verdict_assigning_check_outcomes :
  forall (E : Collaborators) (c : Check) (this this' : Chain),
    c <> IsDateISO -> c <> IsBoolean ->
    lists_value c (value this) = false ->
    call E c this = Returned this' ->
    if _isNullOrUndefined (value this)
    then this' = (if optional this
                  then set_valid false this
                  else set_valid false
                         (push_error (prefixError this ++ required (innerErrorMessage this))
                                     this))
    else this' = set_valid true this \/ this' = fail_invalid this.
Proof. exact check_outcomes. Qed.

(** X2, witness: the theorem at [validate(undefined, msgs, ["earlier"], "f.")
    .isEmail()], a missing value on a chain that is not optional. *)
Lemma verdict_assigning_check_outcomes_witness :
  isEmail sample_collaborators (validate JsUndefined sample_messages ["earlier"] "f.")
  = mkChain JsUndefined sample_messages ["earlier"; "f.required"] false false "f.".
Proof.
  apply (verdict_assigning_check_outcomes
           sample_collaborators IsEmail
           (validate JsUndefined sample_messages ["earlier"] "f.")
           (isEmail sample_collaborators (validate JsUndefined sample_messages ["earlier"] "f."))).
  - discriminate.
  - discriminate.
  - reflexivity.
  - reflexivity.
Defined.

(** ** What each check accepts on a present value *)

Lemma number_without_error_integer (v : JsValue) :
  number_without_error (Joi.integer Joi.number) v
  = match v with JsNum n => Number.isSafeInteger n | _ => false end.
Proof.
  destruct v as [ | | b | n | s | loc elems | loc props ]; try reflexivity.
  destruct n as [ | negative | q ]; try reflexivity.
  unfold number_without_error, Joi.validate_number, Number.isSafeInteger; simpl.
  destruct (Qle_bool (- Number.MAX_SAFE_INTEGER) q && Qle_bool q Number.MAX_SAFE_INTEGER);
    destruct ((Qnum q mod Z.pos (Qden q) =? 0)%Z); reflexivity.
Qed.

Lemma number_without_error_number (v : JsValue) :
  number_without_error Joi.number v
  = match v with JsNum n => Number.isSafe n | _ => false end.
Proof.
  destruct v as [ | | b | n | s | loc elems | loc props ]; try reflexivity.
  destruct n as [ | negative | q ]; try reflexivity.
  unfold number_without_error, Joi.validate_number; simpl.
  destruct (Qle_bool (- Number.MAX_SAFE_INTEGER) q && Qle_bool q Number.MAX_SAFE_INTEGER);
    reflexivity.
Qed.

(** X3: on a present value, [isNumber] passes exactly on the numbers that are
    integers within the safe range, and [isFloat] exactly on the numbers
    within the safe range; NaN, the infinities and every value that is not of
    type number (a numeric string included) fail with the one message
    [prefixError + invalid]. *)
Theorem number_checks_accept_safe_numbers :
  forall this : Chain,
    _isNullOrUndefined (value this) = false ->
    isNumber this
    = (if match value this with JsNum n => Number.isSafeInteger n | _ => false end
       then set_valid true this else fail_invalid this)
    /\ isFloat this
       = (if match value this with JsNum n => Number.isSafe n | _ => false end
          then set_valid true this else fail_invalid this).
Proof.
  intros this Hv; unfold isNumber, isFloat.
  rewrite assign_verify_present by exact Hv; simpl.
  rewrite number_without_error_integer, number_without_error_number.
  rewrite fail_invalid_set_valid.
  split; reflexivity.
Qed.

(** X3, witness: the theorem at the value 1/2, which [isFloat] accepts and
    [isNumber] rejects. *)
Lemma number_checks_accept_safe_numbers_witness :
  isNumber (validate (JsNum (Finite (1 # 2))) sample_messages [] "f.")
  = mkChain (JsNum (Finite (1 # 2))) sample_messages ["f.invalid"] false false "f."
  /\ isFloat (validate (JsNum (Finite (1 # 2))) sample_messages [] "f.")
     = mkChain (JsNum (Finite (1 # 2))) sample_messages [] false true "f.".
Proof.
  apply (number_checks_accept_safe_numbers
           (validate (JsNum (Finite (1 # 2))) sample_messages [] "f.") eq_refl).
Defined.

(** X4: on a present value, [isStringEnum] passes exactly on a non-empty
    string the list includes; the empty string fails even when the list
    includes it, and a value that is not a string gets one message, the
    list not being looked at. *)
Theorem isStringEnum_accepts_listed_strings :
  forall (enumArray : list JsValue) (this : Chain),
    _isNullOrUndefined (value this) = false ->
    isStringEnum enumArray this
    = (if match value this with
          | JsString s => negb (String.eqb s "") && Array.includes enumArray (JsString s)
          | _ => false
          end
       then set_valid true this else fail_invalid this).
Proof.
  intros enumArray this Hv; unfold isStringEnum.
  rewrite assign_validation_present by exact Hv.
  destruct this as [v m errs o vl p]; simpl in *.
  destruct v as [ | | b | n | s | loc elems | loc props ]; try discriminate; try reflexivity.
  unfold Joi.validate_string; simpl.
  destruct s as [ | c s']; [ reflexivity | ].
  simpl.
  destruct (Array.includes enumArray (JsString (String c s'))); reflexivity.
Qed.

(** X4, witness: the theorem at the empty string with the list [""]. *)
Lemma isStringEnum_accepts_listed_strings_witness :
  isStringEnum [JsString ""] (validate (JsString "") sample_messages [] "f.")
  = mkChain (JsString "") sample_messages ["f.invalid"] false false "f.".
Proof.
  apply (isStringEnum_accepts_listed_strings
           [JsString ""] (validate (JsString "") sample_messages [] "f.") eq_refl).
Defined.

(** X5: [custom(func)] never calls the predicate on a missing value (the
    outcome is the same for any two predicates), and on a present value it
    passes exactly when the predicate's result is truthy. *)
Theorem custom_consults_predicate_on_present_values_only :
  forall (func func' : JsValue -> JsValue) (this : Chain),
    (_isNullOrUndefined (value this) = true -> custom func this = custom func' this)
    /\ (_isNullOrUndefined (value this) = false ->
        custom func this
        = (if truthy (func (value this)) then set_valid true this else fail_invalid this)).
Proof.
  intros func func' this; split; intros Hv; unfold custom.
  - destruct (optional this) eqn:Ho.
    + rewrite assign_verify_missing_optional by assumption; reflexivity.
    + rewrite assign_verify_missing_required by assumption; reflexivity.
  - rewrite assign_verify_present by exact Hv; simpl.
    rewrite fail_invalid_set_valid; reflexivity.
Qed.

(** X5, witness: the theorem at [validate(null, ...)] with two opposite
    predicates, and at [validate(0, ...)] with the identity, whose result 0
    is falsy. *)
Lemma custom_consults_predicate_on_present_values_only_witness :
  custom (fun _ => JsBool true) (validate JsNull sample_messages [] "f.")
  = custom (fun _ => JsBool false) (validate JsNull sample_messages [] "f.")
  /\ custom (fun v => v) (validate zero sample_messages [] "f.")
     = mkChain zero sample_messages ["f.invalid"] false false "f.".
Proof.
  split.
  - apply (proj1 (custom_consults_predicate_on_present_values_only
                    (fun _ => JsBool true) (fun _ => JsBool false)
                    (validate JsNull sample_messages [] "f.")) eq_refl).
  - apply (proj2 (custom_consults_predicate_on_present_values_only
                    (fun v => v) (fun v => v)
                    (validate zero sample_messages [] "f.")) eq_refl).
Defined.

Lemma limit_is_number (v : JsValue) (a : nat) :
  Joi.limit v = Some a -> exists q : Q, v = JsNum (Finite q).
Proof.
  destruct v as [ | | b | n | s | loc elems | loc props ]; try discriminate.
  destruct n as [ | negative | q ]; try discriminate.
  intros _; exists q; reflexivity.
Qed.

Lemma limit_of_zero (v : JsValue) (a : nat) :
  strict_equals v zero = true -> Joi.limit v = Some a -> a = 0.
Proof.
  intros Hzero Hlimit.
  destruct (limit_is_number _ _ Hlimit) as [q ->].
  simpl in Hzero; apply Qeq_bool_iff in Hzero.
  unfold Qeq in Hzero; simpl in Hzero.
  assert (Hnum : Qnum q = 0%Z) by lia.
  unfold Joi.limit in Hlimit.
  destruct (Number.isSafeInteger (Finite q) && Qle_bool 0 q); [ | discriminate ].
  injection Hlimit as <-.
  rewrite Hnum; reflexivity.
Qed.

(** X6: [isString(min, max)] with both bounds limits [a] and [b], on a string
    value, passes exactly when the length of the string is between [a] and
    [b]; so the empty string passes exactly when [a] is 0. *)
Theorem isString_enforces_length_bounds :
  forall (minLength maxLength : JsValue) (a b : nat) (s : string) (this : Chain),
    Joi.limit minLength = Some a ->
    Joi.limit maxLength = Some b ->
    value this = JsString s ->
    isString minLength maxLength JsUndefined this
    = Returned (if Nat.leb a (String.length s) && Nat.leb (String.length s) b
                then set_valid true this else fail_invalid this).
Proof.
  intros minLength maxLength a b s this Hmin Hmax Hvalue.
  assert (Hpresent : _isNullOrUndefined (value this) = false)
    by (rewrite Hvalue; reflexivity).
  unfold isString, isString_schema.
  destruct (limit_is_number _ _ Hmin) as [q Hq].
  replace (String.eqb (typeof minLength) "undefined") with false by (rewrite Hq; reflexivity).
  simpl andb.
  destruct (strict_equals minLength (JsNum (Number.of_Z 0))) eqn:Hzero;
    unfold and_then, Joi.min, Joi.max; rewrite Hmin; simpl; rewrite Hmax; simpl;
    rewrite assign_validation_present by exact Hpresent;
    rewrite Hvalue; unfold Joi.validate_string;
    cbn -[Nat.leb Nat.ltb String.length String.eqb];
    rewrite ?Nat.ltb_antisym;
    destruct (String.eqb s "") eqn:Hempty;
    try (apply String.eqb_eq in Hempty; subst s);
    cbn -[Nat.leb Nat.ltb String.length String.eqb].
  - assert (Ha : a = 0) by (eapply limit_of_zero; eassumption); subst a.
    reflexivity.
  - assert (Ha : a = 0) by (eapply limit_of_zero; eassumption); subst a.
    change (Nat.leb 0 (String.length s)) with true; simpl.
    destruct (Nat.leb (String.length s) b); reflexivity.
  - destruct a; reflexivity.
  - destruct (Nat.leb a (String.length s)); simpl; [ | reflexivity ].
    destruct (Nat.leb (String.length s) b); reflexivity.
Qed.

(** X6, witness: the theorem at [isString(3, 5)] on "ab", too short. *)
Lemma isString_enforces_length_bounds_witness :
  isString (JsNum (Number.of_Z 3)) five JsUndefined
           (validate (JsString "ab") sample_messages [] "f.")
  = Returned (mkChain (JsString "ab") sample_messages ["f.invalid"] false false "f.").
Proof.
  apply (isString_enforces_length_bounds
           (JsNum (Number.of_Z 3)) five 3 5 "ab"
           (validate (JsString "ab") sample_messages [] "f.")
           eq_refl eq_refl eq_refl).
Defined.

Lemma typeof_not_undefined (v : JsValue) :
  v <> JsUndefined -> String.eqb (typeof v) "undefined" = false.
Proof. destruct v; intros H; try reflexivity; congruence. Qed.

(** X7: [isString] given exactly one of its two bounds throws the limit
    error of the schema builder, whatever the value and [notAllowedValues],
    and leaves the chain untouched: no verdict, no message. *)
Theorem isString_with_one_bound_throws :
  forall (minLength maxLength notAllowedValues : JsValue) (this : Chain),
    (minLength = JsUndefined /\ maxLength <> JsUndefined)
    \/ (minLength <> JsUndefined /\ maxLength = JsUndefined) ->
    isString minLength maxLength notAllowedValues this = Threw Joi.limit_error this.
Proof.
  intros minLength maxLength notAllowedValues this Hone.
  assert (Hschema : exists sch : Joi.StringSchema,
             isString_schema minLength maxLength = Threw Joi.limit_error sch).
  { unfold isString_schema.
    destruct Hone as [[-> Hmax] | [Hmin ->]].
    - rewrite (typeof_not_undefined _ Hmax), andb_false_r.
      eexists; reflexivity.
    - rewrite (typeof_not_undefined _ Hmin), andb_false_l.
      destruct (strict_equals minLength (JsNum (Number.of_Z 0)));
        unfold and_then, Joi.min;
        destruct (Joi.limit minLength); eexists; reflexivity. }
  destruct Hschema as [sch Hschema].
  unfold isString; rewrite Hschema; reflexivity.
Qed.

(** X7, witness: the theorem at [isString(3)] and at [isString(undefined, 5)]. *)
Lemma isString_with_one_bound_throws_witness :
  isString (JsNum (Number.of_Z 3)) JsUndefined JsUndefined
           (validate (JsString "abc") sample_messages [] "f.")
  = Threw Joi.limit_error (validate (JsString "abc") sample_messages [] "f.")
  /\ isString JsUndefined five JsUndefined
              (validate (JsString "abc") sample_messages [] "f.")
     = Threw Joi.limit_error (validate (JsString "abc") sample_messages [] "f.").
Proof.
  split.
  - apply isString_with_one_bound_throws; right; split; [ discriminate | reflexivity ].
  - apply isString_with_one_bound_throws; left; split; [ reflexivity | discriminate ].
Defined.

(** An object is empty exactly when it has no own property at all, named or
    keyed by a symbol; a string or an array is never empty in this sense. *)
Lemma isEmptyObject_object (loc : nat) (props : list (PropertyKey * JsValue)) :
  _isEmptyObject (JsObject loc props) = true <-> props = [].
Proof.
  split.
  - unfold _isEmptyObject; simpl.
    destruct props as [ | [k x] rest ]; [ reflexivity | ].
    simpl; destruct (Object.is_symbol k); simpl; intros H.
    + discriminate.
    + rewrite andb_false_r in H; discriminate.
  - intros ->; reflexivity.
Qed.

(** X8: on a present value, [isObjectNotEmpty] passes exactly when the object
    schema accepts the value and the value owns a property; a value the
    schema rejects gets one message, not two; among objects, exactly the
    one without any own property, named or keyed by a symbol, is empty. *)
Theorem isObjectNotEmpty_accepts_objects_with_properties :
  forall (E : Collaborators) (this : Chain),
    (_isNullOrUndefined (value this) = false ->
     isObjectNotEmpty E this
     = (match Joi_object E (value this) with
        | Some _ => fail_invalid this
        | None => if _isEmptyObject (value this)
                  then fail_invalid this else set_valid true this
        end))
    /\ (forall (loc : nat) (props : list (PropertyKey * JsValue)),
           _isEmptyObject (JsObject loc props) = true <-> props = []).
Proof.
  intros E this; split; [ | apply isEmptyObject_object ].
  intros Hv; unfold isObjectNotEmpty.
  rewrite assign_verify_present by exact Hv.
  rewrite assign_validation_present by exact Hv.
  simpl value.
  destruct (Joi_object E (value this)).
  - rewrite fail_invalid_set_valid; reflexivity.
  - simpl.
    destruct (_isEmptyObject (value this)); simpl.
    + rewrite !fail_invalid_set_valid; reflexivity.
    + destruct this; reflexivity.
Qed.

(** X8, witness: the theorem at the empty object and at an object with one
    property. *)
Lemma isObjectNotEmpty_accepts_objects_with_properties_witness :
  isObjectNotEmpty sample_collaborators (validate (JsObject 1 []) sample_messages [] "f.")
  = mkChain (JsObject 1 []) sample_messages ["f.invalid"] false false "f."
  /\ isObjectNotEmpty sample_collaborators
       (validate (JsObject 1 [(PName "a", five)]) sample_messages [] "f.")
     = mkChain (JsObject 1 [(PName "a", five)]) sample_messages [] false true "f.".
Proof.
  split.
  - apply (proj1 (isObjectNotEmpty_accepts_objects_with_properties
                    sample_collaborators
                    (validate (JsObject 1 []) sample_messages [] "f.")) eq_refl).
  - apply (proj1 (isObjectNotEmpty_accepts_objects_with_properties
                    sample_collaborators
                    (validate (JsObject 1 [(PName "a", five)]) sample_messages [] "f."))
                 eq_refl).
Defined.

(** X9: on a present value, [isArrayNotEmpty] passes exactly when the array
    schema accepts the value and its [length] is positive; a value the schema
    rejects gets one message, not two. *)
Theorem isArrayNotEmpty_accepts_arrays_with_elements :
  forall (E : Collaborators) (this : Chain),
    _isNullOrUndefined (value this) = false ->
    isArrayNotEmpty E this
    = (match Joi_array E (value this) with
       | Some _ => fail_invalid this
       | None => if length_positive (value this)
                 then set_valid true this else fail_invalid this
       end).
Proof.
  intros E this Hv; unfold isArrayNotEmpty.
  rewrite assign_validation_present by exact Hv.
  destruct (Joi_array E (value this)).
  - reflexivity.
  - simpl.
    destruct (length_positive (value this)); simpl.
    + reflexivity.
    + rewrite fail_invalid_set_valid; reflexivity.
Qed.

(** X9, witness: the theorem at the empty array. *)
Lemma isArrayNotEmpty_accepts_arrays_with_elements_witness :
  isArrayNotEmpty sample_collaborators (validate (JsArray 1 []) sample_messages [] "f.")
  = mkChain (JsArray 1 []) sample_messages ["f.invalid"] false false "f.".
Proof.
  apply (isArrayNotEmpty_accepts_arrays_with_elements
           sample_collaborators (validate (JsArray 1 []) sample_messages [] "f.") eq_refl).
Defined.

(** X10: on a present value, [isDateIS8601Duration] passes exactly on a
    non-empty string the duration parser takes; the parser is not run on the
    empty string nor on a value that is not a string, which get one message. *)
Theorem isDateIS8601Duration_accepts_parsed_strings :
  forall (E : Collaborators) (this : Chain),
    _isNullOrUndefined (value this) = false ->
    isDateIS8601Duration E this
    = (if match value this with
          | JsString s => negb (String.eqb s "")
          | _ => false
          end
          && tinyduration_parse E (value this)
       then set_valid true this else fail_invalid this).
Proof.
  intros E this Hv; unfold isDateIS8601Duration.
  rewrite assign_validation_present by exact Hv.
  destruct this as [v m errs o vl p]; simpl in *.
  destruct v as [ | | b | n | s | loc elems | loc props ]; try discriminate; try reflexivity.
  unfold Joi.validate_string; simpl.
  destruct s as [ | c s']; [ reflexivity | ].
  simpl.
  destruct (tinyduration_parse E (JsString (String c s'))); reflexivity.
Qed.

(** X10, witness: the theorem at the number 5, with a parser that takes
    everything: the check fails all the same. *)
Lemma isDateIS8601Duration_accepts_parsed_strings_witness :
  isDateIS8601Duration lenient_collaborators (validate five sample_messages [] "f.")
  = mkChain five sample_messages ["f.invalid"] false false "f.".
Proof.
  apply (isDateIS8601Duration_accepts_parsed_strings
           lenient_collaborators (validate five sample_messages [] "f.") eq_refl).
Defined.

(** X11: [isArrayMatch] on a missing value returns without building the
    regular expression, whatever the allowed list.  On a present value, a
    pattern text the constructor rejects makes the call throw, [valid]
    already set to true; otherwise the call passes exactly when every element
    of the array (the string itself, for a string) matches, so the empty
    array always passes, and a value that is neither fails. *)
Theorem isArrayMatch_tests_every_field :
  forall (E : Collaborators) (validArray : list JsValue) (this : Chain),
    (_isNullOrUndefined (value this) = true ->
     isArrayMatch E validArray this
     = Returned (if optional this then set_valid false this
                 else set_valid false
                        (push_error (prefixError this ++ required (innerErrorMessage this))
                                    this)))
    /\ (_isNullOrUndefined (value this) = false ->
        RegExp_new E ("^(" ++ Array_join E "|" validArray ++ ")$") = None ->
        isArrayMatch E validArray this = Threw "SyntaxError" (set_valid true this))
    /\ (forall test : JsValue -> bool,
           _isNullOrUndefined (value this) = false ->
           RegExp_new E ("^(" ++ Array_join E "|" validArray ++ ")$") = Some test ->
           isArrayMatch E validArray this
           = Returned (match value this with
                       | JsArray _ elems =>
                           if forallb test elems then set_valid true this
                           else fail_invalid this
                       | JsString s =>
                           if test (JsString s) then set_valid true this
                           else fail_invalid this
                       | _ => fail_invalid this
                       end)).
Proof.
  intros E validArray this; unfold isArrayMatch; repeat split.
  - intros Hv; destruct (optional this) eqn:Ho.
    + rewrite assign_verify_missing_optional by assumption; reflexivity.
    + rewrite assign_verify_missing_required by assumption; reflexivity.
  - intros Hv Hnew.
    rewrite assign_verify_present by exact Hv.
    rewrite Hnew; reflexivity.
  - intros test Hv Hnew.
    rewrite assign_verify_present by exact Hv.
    rewrite Hnew.
    destruct this as [v m errs o vl p]; simpl in *.
    destruct v as [ | | b | n | s | loc elems | loc props ]; try discriminate;
      try reflexivity.
    + simpl; destruct (test (JsString s)); reflexivity.
    + simpl; rewrite for_of_fields_forallb.
      destruct (forallb test elems); reflexivity.
Qed.

(** X11, witness: the theorem at the empty array with the allowed list
    ["a","b"], and at [null] on a chain that is not optional. *)
Lemma isArrayMatch_tests_every_field_witness :
  isArrayMatch sample_collaborators a_or_b (validate JsNull sample_messages [] "f.")
  = Returned (mkChain JsNull sample_messages ["f.required"] false false "f.")
  /\ isArrayMatch sample_collaborators a_or_b (validate (JsArray 1 []) sample_messages [] "f.")
     = Returned (mkChain (JsArray 1 []) sample_messages [] false true "f.").
Proof.
  split.
  - apply (proj1 (isArrayMatch_tests_every_field
                    sample_collaborators a_or_b
                    (validate JsNull sample_messages [] "f.")) eq_refl).
  - destruct (RegExp_new_a_or_b sample_collaborators) as [test Htest].
    apply (proj2 (proj2 (isArrayMatch_tests_every_field
                    sample_collaborators a_or_b
                    (validate (JsArray 1 []) sample_messages [] "f."))) test eq_refl Htest).
Defined.

(** ** How the checks compose *)

Lemma string_schema_within_allow_empty (v : JsValue) :
  Joi.validate_string Joi.string v = None ->
  Joi.validate_string (Joi.allow "" Joi.string) v = None.
Proof.
  destruct v as [ | | b | n | s | loc elems | loc props ]; try discriminate; try reflexivity.
  intros _; apply string_allow_empty_accepts.
Qed.

Lemma isString_plain_present (this : Chain) :
  _isNullOrUndefined (value this) = false ->
  isString JsUndefined JsUndefined JsUndefined this
  = Returned (match Joi.validate_string (Joi.allow "" Joi.string) (value this) with
              | None => set_valid true this
              | Some _ => fail_invalid this
              end).
Proof.
  intros Hv; unfold isString; simpl.
  rewrite assign_validation_present by exact Hv.
  destruct (Joi.validate_string (Joi.allow "" Joi.string) (value this)); reflexivity.
Qed.

Lemma valid_fail_invalid (this : Chain) : valid (fail_invalid this) = false.
Proof. reflexivity. Qed.

(** X12: the stronger checks imply the weaker ones.  On any chain, if
    [isArrayNotEmpty] leaves [valid] true then [isArray] passes without a
    message, if [isObjectNotEmpty] leaves [valid] true then so does
    [isObject], and if [isStringEnum] or [isDateIS8601Duration] leaves [valid]
    true then [isString()] passes without a message. *)
Theorem stronger_checks_imply_weaker :
  forall (E : Collaborators) (enumArray : list JsValue) (this : Chain),
    (valid (isArrayNotEmpty E this) = true -> isArray E this = set_valid true this)
    /\ (valid (isObjectNotEmpty E this) = true -> isObject E this = set_valid true this)
    /\ (valid (isStringEnum enumArray this) = true ->
        isString JsUndefined JsUndefined JsUndefined this = Returned (set_valid true this))
    /\ (valid (isDateIS8601Duration E this) = true ->
        isString JsUndefined JsUndefined JsUndefined this = Returned (set_valid true this)).
Proof.
  intros E enumArray this.
  destruct (_isNullOrUndefined (value this)) eqn:Hv.
  - (* a missing value: none of the four leaves [valid] true *)
    destruct (optional this) eqn:Ho;
      unfold isArrayNotEmpty, isObjectNotEmpty, isStringEnum, isDateIS8601Duration;
      rewrite ?assign_validation_missing_optional, ?assign_verify_missing_optional,
        ?assign_validation_missing_required, ?assign_verify_missing_required by assumption;
      simpl; repeat split; discriminate.
  - unfold isArray, isObject.
    rewrite isString_plain_present by exact Hv.
    unfold isArrayNotEmpty, isObjectNotEmpty, isStringEnum, isDateIS8601Duration.
    rewrite assign_verify_present by exact Hv.
    rewrite !assign_validation_present by exact Hv.
    simpl value.
    repeat split.
    + destruct (Joi_array E (value this)); [ discriminate | reflexivity ].
    + destruct (Joi_object E (value this)); [ discriminate | ].
      intros _; destruct this; reflexivity.
    + destruct (Joi.validate_string Joi.string (value this)) eqn:Hs; [ discriminate | ].
      rewrite (string_schema_within_allow_empty _ Hs); reflexivity.
    + destruct (Joi.validate_string Joi.string (value this)) eqn:Hs; [ discriminate | ].
      rewrite (string_schema_within_allow_empty _ Hs); reflexivity.
Qed.

(** X12, witness: the theorem at the array [5] and at the string "a". *)
Lemma stronger_checks_imply_weaker_witness :
  isArray sample_collaborators (validate (JsArray 1 [five]) sample_messages [] "f.")
  = set_valid true (validate (JsArray 1 [five]) sample_messages [] "f.")
  /\ isString JsUndefined JsUndefined JsUndefined (validate (JsString "a") sample_messages [] "f.")
     = Returned (set_valid true (validate (JsString "a") sample_messages [] "f.")).
Proof.
  split.
  - apply (proj1 (stronger_checks_imply_weaker
                    sample_collaborators []
                    (validate (JsArray 1 [five]) sample_messages [] "f.")) eq_refl).
  - apply (proj1 (proj2 (proj2 (stronger_checks_imply_weaker
                    sample_collaborators [JsString "a"]
                    (validate (JsString "a") sample_messages [] "f.")))) eq_refl).
Defined.

(** ** Chains of checks *)

Lemma run_checks_app (E : Collaborators) (cs cs' : list Check) (this : Chain) :
  run_checks E (cs ++ cs') this = run_checks E cs this >>= run_checks E cs'.
Proof.
  revert this; induction cs as [ | c cs IH]; intros this; simpl.
  - reflexivity.
  - destruct (call E c this) as [this1 | e this1]; simpl; [ apply IH | reflexivity ].
Qed.

(** The footprint of a chain of calls. *)
Lemma run_checks_footprint (E : Collaborators) (cs : list Check) (this : Chain) :
  exists (v : bool) (added : list string),
    state_of (run_checks E cs this)
    = mkChain (value this) (innerErrorMessage this) (errors this ++ added)%list
              (optional this) v (prefixError this)
    /\ List.length added <= 2 * List.length cs.
Proof.
  revert this; induction cs as [ | c cs IH]; intros this.
  - exists (valid this), []; rewrite app_nil_r; destruct this; split; [ reflexivity | simpl; lia ].
  - destruct (call_footprint E c this) as (v1 & added1 & Hcall & Hbound & _).
    assert (Hbound2 : List.length added1 <= 2) by (destruct c; simpl in Hbound; lia).
    simpl run_checks.
    destruct (call E c this) as [this1 | e this1]; simpl in Hcall; subst this1; simpl.
    + destruct (IH (mkChain (value this) (innerErrorMessage this) (errors this ++ added1)%list
                            (optional this) v1 (prefixError this)))
        as (v2 & added2 & Hrest & Hbound').
      exists v2, (added1 ++ added2)%list.
      rewrite Hrest; simpl; rewrite app_assoc.
      split; [ reflexivity | rewrite length_app; simpl in *; lia ].
    + exists v1, added1; split; [ reflexivity | simpl; lia ].
Qed.

(** X13: a chain of check calls of any length, whether it runs to its end or
    stops at a throw, leaves [value], [innerErrorMessage], [optional] and
    [prefixError] as they were and [errors] with its earlier content first:
    messages are only ever appended, at most two per call. *)
Theorem run_checks_only_appends_errors :
  forall (E : Collaborators) (cs : list Check) (this : Chain),
    exists (v : bool) (added : list string),
      state_of (run_checks E cs this)
      = mkChain (value this) (innerErrorMessage this) (errors this ++ added)%list
                (optional this) v (prefixError this)
      /\ List.length added <= 2 * List.length cs.
Proof. exact run_checks_footprint. Qed.

(** For a check that assigns [valid], the verdict of a returning call depends
    on the value and on [optional] only. *)
Lemma verdict_ignores_valid_and_errors (E : Collaborators) (c : Check)
      (v : JsValue) (m : Messages) (o : bool) (p : string)
      (errs errs' : list string) (vl vl' : bool) (this' : Chain) :
  c <> IsDateISO -> c <> IsBoolean ->
  call E c (mkChain v m errs o vl p) = Returned this' ->
  valid (state_of (call E c (mkChain v m errs' o vl' p))) = valid this'.
Proof.
  intros Hdate Hbool.
  destruct c; try congruence; clear Hdate Hbool; simpl; unfold_checks;
    unfold isString, assign_validation, discard_validation, assign_verifyNullOrUndefined,
      _validation, _verifyNullOrUndefined, fail_invalid, push_error, set_valid, set_errors;
    simpl.
  - destruct (isString_schema minLength maxLength) as [schema | e schema]; simpl;
      [ | close_outcome ].
    destruct (_isNullOrUndefined v), o; simpl; split_conditions; close_outcome.
  - destruct (_isNullOrUndefined v), o; simpl; split_conditions; close_outcome.
  - destruct (_isNullOrUndefined v), o; simpl; split_conditions; close_outcome.
  - destruct (_isNullOrUndefined v), o; simpl; split_conditions; close_outcome.
  - destruct (_isNullOrUndefined v), o; simpl; split_conditions; close_outcome.
  - destruct (_isNullOrUndefined v), o; simpl; split_conditions; close_outcome.
  - destruct (_isNullOrUndefined v) eqn:Hv, o; simpl; try rewrite Hv; simpl;
      split_conditions; close_outcome.
  - destruct (_isNullOrUndefined v), o; simpl; split_conditions; close_outcome.
  - destruct (_isNullOrUndefined v), o; simpl; split_conditions; close_outcome.
  - destruct (_isNullOrUndefined v), o; simpl; split_conditions; close_outcome.
  - destruct (_isNullOrUndefined v), o; simpl; split_conditions; close_outcome.
  - destruct (_isNullOrUndefined v), o; simpl; try close_outcome;
      (destruct (RegExp_new E _) as [test | ]; simpl; [ | close_outcome ];
       rewrite ?for_of_fields_forallb; simpl; split_conditions; close_outcome).
  - destruct (_isNullOrUndefined v), o; simpl; split_conditions; close_outcome.
  - destruct (_isNullOrUndefined v), o; simpl; split_conditions; close_outcome.
Qed.

(** X14: only the last check decides [valid].  When a chain of checks ending
    in a check other than [isDateISO] and [isBoolean] runs to its end, the
    [valid] it leaves is the one that last check alone leaves on the chain
    as it was opened: the verdicts of the earlier checks are lost. *)
Theorem last_check_decides_valid :
  forall (E : Collaborators) (cs : list Check) (c : Check) (this final : Chain),
    c <> IsDateISO -> c <> IsBoolean ->
    run_checks E (cs ++ [c]) this = Returned final ->
    valid final = valid (state_of (call E c this)).
Proof.
  intros E cs c this final Hdate Hbool Hrun.
  rewrite run_checks_app in Hrun.
  destruct (run_checks_footprint E cs this) as (v1 & added & Hstate & _).
  destruct (run_checks E cs this) as [this1 | e this1]; simpl in Hrun, Hstate;
    [ | discriminate ].
  subst this1.
  destruct (call E c _) as [this2 | e this2] eqn:Hcall in Hrun; simpl in Hrun;
    [ | discriminate ].
  injection Hrun as <-.
  symmetry.
  destruct this as [v m errs o vl p]; simpl in *.
  eapply verdict_ignores_valid_and_errors; eassumption.
Qed.

(** X14, witness: the theorem at [validate("abc", ...).isNumber().isEmail()
    .isString()]: two failed checks, then [isString()] leaves [valid] true. *)
Lemma last_check_decides_valid_witness :
  valid (state_of (run_checks sample_collaborators
                     [IsNumber; IsEmail; IsString JsUndefined JsUndefined JsUndefined]
                     (validate (JsString "abc") sample_messages [] "f.")))
  = true.
Proof.
  apply (last_check_decides_valid
           sample_collaborators [IsNumber; IsEmail]
           (IsString JsUndefined JsUndefined JsUndefined)
           (validate (JsString "abc") sample_messages [] "f.")
           (state_of (run_checks sample_collaborators
                        [IsNumber; IsEmail; IsString JsUndefined JsUndefined JsUndefined]
                        (validate (JsString "abc") sample_messages [] "f.")))).
  - discriminate.
  - discriminate.
  - reflexivity.
Defined.

(** X15: [isValid] after a check.  When a check other than [isDateISO] and
    [isBoolean] has returned, on a missing value (optional chain or not) or
    having appended a message with the prefix, the [isValid] call that
    follows does not run its callback. *)
Theorem isValid_skips_callback_after_failed_check :
  forall (E : Collaborators) (c : Check) (this this' : Chain)
         (W : Type) (func : Chain * W -> Chain * W) (w : W),
    c <> IsDateISO -> c <> IsBoolean ->
    lists_value c (value this) = false ->
    call E c this = Returned this' ->
    _isNullOrUndefined (value this) = true \/ errors this' <> errors this ->
    isValid func (this', w) = (this', w).
Proof.
  intros E c this this' W func w Hdate Hbool Hlists Hcall Hfailed.
  pose proof (check_outcomes E c this this' Hdate Hbool Hlists Hcall) as Hout.
  unfold isValid; simpl.
  destruct (_isNullOrUndefined (value this)).
  - subst this'; destruct (optional this); reflexivity.
  - destruct Hfailed as [Hmissing | Herrors]; [ discriminate | ].
    destruct Hout as [-> | ->]; [ | reflexivity ].
    exfalso; apply Herrors; reflexivity.
Qed.

(** X15, witness: the theorem at [validate(undefined, ...).isOptional()
    .isString()] followed by [isValid] with a callback that would store 5. *)
Lemma isValid_skips_callback_after_failed_check_witness :
  isValid (fun state => (fst state, five))
          (mkChain JsUndefined sample_messages [] true false "f.", JsNull)
  = (mkChain JsUndefined sample_messages [] true false "f.", JsNull).
Proof.
  apply (isValid_skips_callback_after_failed_check
           sample_collaborators (IsString JsUndefined JsUndefined JsUndefined)
           (isOptional (validate JsUndefined sample_messages [] "f."))).
  - discriminate.
  - discriminate.
  - reflexivity.
  - reflexivity.
  - left; reflexivity.
Defined.

(** ** A call reads neither [errors] nor [valid] *)

Ltac close_alike :=
  try solve [ simpl in *; congruence ];
  simpl; try (split; [ reflexivity | ]); unfold alike; simpl;
  rewrite <- ?app_assoc; simpl;
  first
    [ exists []; rewrite !app_nil_r;
      split; [ reflexivity | split; [ reflexivity | ] ]
    | eexists; split; [ reflexivity | split; [ reflexivity | ] ] ];
  first [ left; reflexivity | right; split; reflexivity ].

Lemma call_same_effect (E : Collaborators) (c : Check)
      (v : JsValue) (m : Messages) (o : bool) (p : string)
      (errs errs' : list string) (vl vl' : bool) :
  same_effect errs errs' vl vl'
              (call E c (mkChain v m errs o vl p)) (call E c (mkChain v m errs' o vl' p)).
Proof.
  destruct c; simpl; unfold_checks;
    unfold isString, assign_validation, discard_validation, assign_verifyNullOrUndefined,
      _validation, _verifyNullOrUndefined, fail_invalid, push_error, set_valid, set_errors;
    simpl.
  - destruct (isString_schema minLength maxLength) as [schema | e schema]; simpl;
      [ | close_alike ].
    destruct (_isNullOrUndefined v), o; simpl; split_conditions; close_alike.
  - destruct (_isNullOrUndefined v), o; simpl; split_conditions; close_alike.
  - destruct (_isNullOrUndefined v), o; simpl; split_conditions; close_alike.
  - destruct (_isNullOrUndefined v), o; simpl; split_conditions; close_alike.
  - destruct (_isNullOrUndefined v), o; simpl; split_conditions; close_alike.
  - destruct (_isNullOrUndefined v), o; simpl; split_conditions; close_alike.
  - destruct (_isNullOrUndefined v), o; simpl; split_conditions; close_alike.
  - destruct (_isNullOrUndefined v), o; simpl; split_conditions; close_alike.
  - destruct (_isNullOrUndefined v) eqn:Hv, o; simpl; try rewrite Hv; simpl;
      split_conditions; close_alike.
  - destruct (_isNullOrUndefined v), o; simpl; split_conditions; close_alike.
  - destruct (_isNullOrUndefined v), o; simpl; split_conditions; close_alike.
  - destruct (_isNullOrUndefined v), o; simpl; split_conditions; close_alike.
  - destruct (_isNullOrUndefined v), o; simpl; split_conditions; close_alike.
  - destruct (_isNullOrUndefined v), o; simpl; try close_alike;
      (destruct (RegExp_new E _) as [test | ]; simpl; [ | close_alike ];
       rewrite ?for_of_fields_forallb; simpl; split_conditions; close_alike).
  - destruct (_isNullOrUndefined v), o; simpl; split_conditions; close_alike.
  - destruct (_isNullOrUndefined v), o; simpl; split_conditions; close_alike.
Qed.

(** X16: the effect of a check call does not depend on the messages already
    in [errors] nor on [valid]: run on two chains that differ in those two
    fields only, the call returns in both or throws the same error in both,
    appends the same messages, and leaves the same [valid] (or, where it
    does not assign it, the [valid] it found). *)
Theorem call_reads_neither_errors_nor_valid :
  forall (E : Collaborators) (c : Check) (v : JsValue) (m : Messages) (o : bool) (p : string)
         (errs errs' : list string) (vl vl' : bool),
    same_effect errs errs' vl vl'
                (call E c (mkChain v m errs o vl p)) (call E c (mkChain v m errs' o vl' p)).
Proof. exact call_same_effect. Qed.

(** X17: nothing is deduplicated.  When a check call returns, the same call
    made again returns too, appends once more the messages the first call
    appended, and leaves [valid] as the first call left it. *)
Theorem repeated_check_repeats_its_messages :
  forall (E : Collaborators) (c : Check) (this this1 : Chain),
    call E c this = Returned this1 ->
    exists (this2 : Chain) (added : list string),
      call E c this1 = Returned this2
      /\ errors this1 = (errors this ++ added)%list
      /\ errors this2 = (errors this1 ++ added)%list
      /\ valid this2 = valid this1.
Proof.
  intros E c this this1 Hcall.
  destruct (call_footprint E c this) as (v1 & added & Hstate & _).
  rewrite Hcall in Hstate; simpl in Hstate.
  destruct this as [v m errs o vl p]; simpl in Hstate.
  pose proof (call_same_effect E c v m o p errs (errs ++ added) vl v1) as Heffect.
  rewrite Hcall, <- Hstate in Heffect; simpl in Heffect.
  destruct (call E c this1) as [this2 | e this2]; [ | contradiction ].
  destruct Heffect as (added' & Herrs1 & Herrs2 & Hvalid).
  subst this1; simpl in *.
  apply app_inv_head in Herrs1; subst added'.
  exists this2, added.
  repeat split; try assumption.
  destruct Hvalid as [Hsame | [_ Hfound]]; congruence.
Qed.

(** X17, witness: the theorem at [validate(undefined, msgs, [], "f.")
    .isString().isString()]: "f.required" is in [errors] twice. *)
Lemma repeated_check_repeats_its_messages_witness :
  exists (this2 : Chain) (added : list string),
    isString JsUndefined JsUndefined JsUndefined
             (mkChain JsUndefined sample_messages ["f.required"] false false "f.")
    = Returned this2
    /\ ["f.required"] = ([] ++ added)%list
    /\ errors this2 = (["f.required"] ++ added)%list
    /\ valid this2 = false.
Proof.
  apply (repeated_check_repeats_its_messages
           sample_collaborators (IsString JsUndefined JsUndefined JsUndefined)
           (validate JsUndefined sample_messages [] "f.")
           (mkChain JsUndefined sample_messages ["f.required"] false false "f.")
           eq_refl).
Defined.
